(** * The fleet client of inago: endpoint resolution, lifecycle verbs and
      status aggregation (src/fleet/fleet.go)

    The Go package talks to a fleet cluster through the [client.API]
    interface of github.com/coreos/fleet.  Every call on that interface is
    a request to the outside world, so the methods of the package are
    embedded as programs over a signature of requests: a program either
    returns, or issues one request and continues with the answer.  The
    programs are finite (the loops range over fetched slices), hence an
    inductive type is enough and programs can be run against any handler.

    Go's multiple results [(v, err)] are pairs [(v, option error)]; a nil
    error is [None].  Pointers handed out by the client ([*schema.Unit] and
    the like) are taken to be non-nil, as the HTTP client builds them. *)

From Stdlib Require Import List String Bool Arith Lia.
Import ListNotations.
Local Open Scope string_scope.
Local Open Scope list_scope.

Set Implicit Arguments.

(** ** Errors *)

(** Modelled from the spec: the file error.go of the package is missing; it
    declares [maskAny], [unitNotFoundError], [ipNotFoundError] and
    [IsUnitNotFound].  By section 4.4 of the specification every failure is
    wrapped in an envelope that preserves the underlying cause, and
    [UnitNotFound] is the one classification callers can test for.
    [Errorf] keeps the format string and its arguments of a [fmt.Errorf]
    call; [Foreign] stands for an error value made by a collaborator (the
    fleet client, the unit-file parser). *)
Inductive error : Type :=
| unitNotFoundError
| ipNotFoundError
| Errorf (format : string) (args : list string)
| Foreign (msg : string)
| Masked (underlying : error).

Definition maskAny (err : error) : error := Masked err.

Fixpoint Cause (err : error) : error :=
  match err with
  | Masked e => Cause e
  | e => e
  end.

Definition IsUnitNotFound (err : error) : bool :=
  match Cause err with
  | unitNotFoundError => true
  | _ => false
  end.

(** The same test for the other error of the package. *)
Definition IsIPNotFound (err : error) : bool :=
  match Cause err with
  | ipNotFoundError => true
  | _ => false
  end.

(** The spec's ConfigurationError: an error made by [fmt.Errorf] in
    [NewFleet]. *)
Definition IsConfigurationError (err : error) : bool :=
  match Cause err with
  | Errorf _ _ => true
  | _ => false
  end.

(** ** Constants of the package *)

Definition unitStateInactive : string := "inactive".
Definition unitStateLoaded : string := "loaded".
Definition unitStateLaunched : string := "launched".

(** ** Collaborators

    What the package takes from the Go standard library and from
    github.com/coreos/fleet without defining it: opaque types and pure
    functions.  [net.IP] is a byte slice; the nil slice is [[]].  *)

Definition net_IP : Type := list Byte.byte.

Class Deps : Type := {
  (** a value implementing [client.API] *)
  API : Type;
  (** [net.Conn] *)
  Conn : Type;
  (** [*unit.UnitFile] *)
  UnitFile : Type;
  (** [*schema.UnitOption] *)
  UnitOption : Type;
  (** [net.ParseIP]: the nil IP when the text is no IP address *)
  ParseIP : string -> net_IP;
  (** [unit.NewUnitFile] *)
  NewUnitFile : string -> UnitFile * option error;
  (** [schema.MapUnitFileToSchemaUnitOptions] *)
  MapUnitFileToSchemaUnitOptions : UnitFile -> list UnitOption
}.

(** ** Data *)

(** [url.URL], the fields [NewFleet] reads and writes. *)
Record url_URL : Type := {
  Scheme : string;
  Host : string;
  Path : string
}.

(** The one thing a dial function of this package does is to return the
    result of a [net.Dial] call; it is represented by the arguments of that
    call. *)
Record net_Dial : Type := {
  network : string;
  address : string
}.

(** [http.RoundTripper]: [http.DefaultTransport], or an [http.Transport]
    literal with its [Dial] field set. *)
Inductive RoundTripper : Type :=
| DefaultTransport
| Transport (Dial : string -> string -> net_Dial).

(** [http.Client]; a nil [Transport] is [None]. *)
Record http_Client : Type := {
  Client_Transport : option RoundTripper
}.

(** [Config]; the [*http.Client] is taken to be set, as [DefaultConfig]
    sets it. *)
Record Config : Type := {
  Client : http_Client;
  Endpoint : url_URL
}.

Record MachineStatus : Type := {
  ID : string;
  IP : net_IP;
  SystemdActive : string
}.

Record UnitStatus : Type := {
  Current : string;
  Desired : string;
  Machine : list MachineStatus
}.

(** [UnitStatus{}] *)
Definition UnitStatus_zero : UnitStatus :=
  {| Current := ""; Desired := ""; Machine := [] |}.

Record schema_UnitState : Type := {
  UnitState_Name : string;
  UnitState_MachineID : string;
  UnitState_SystemdActiveState : string
}.

Record schema_Machine : Type := {
  Machine_ID : string;
  Machine_PublicIP : string
}.

Section Fleet.

Context {deps : Deps}.

Record schema_Unit : Type := {
  Unit_Name : string;
  Unit_Options : list UnitOption;
  Unit_DesiredState : string;
  Unit_CurrentState : string
}.

Record fleet : Type := {
  fleet_Config : Config;
  fleet_Client : API
}.

(** ** Requests to the outside world *)

Inductive Request : Type :=
| NewHTTPClient (c : http_Client) (ep : url_URL)
| NetDial (d : net_Dial)
| Units (c : API)
| UnitStates (c : API)
| Machines (c : API)
| CreateUnit (c : API) (u : schema_Unit)
| SetUnitTargetState (c : API) (name target : string)
| DestroyUnit (c : API) (name : string).

Definition Response (r : Request) : Type :=
  match r with
  | NewHTTPClient _ _ => (API * option error)%type
  | NetDial _ => (option Conn * option error)%type
  | Units _ => (list schema_Unit * option error)%type
  | UnitStates _ => (list schema_UnitState * option error)%type
  | Machines _ => (list schema_Machine * option error)%type
  | CreateUnit _ _ => option error
  | SetUnitTargetState _ _ _ => option error
  | DestroyUnit _ _ => option error
  end.

(** ** Programs *)

Inductive Prog (A : Type) : Type :=
| Ret (a : A)
| Vis (r : Request) (k : Response r -> Prog A).

Arguments Ret {A} a.
Arguments Vis {A} r k.

Fixpoint bind {A B : Type} (p : Prog A) (f : A -> Prog B) : Prog B :=
  match p with
  | Ret a => f a
  | Vis r k => Vis r (fun x => bind (k x) f)
  end.

Definition call (r : Request) : Prog (Response r) := Vis r Ret.

(** A handler answers requests and moves the world on. *)
Definition Handler (W : Type) : Type := forall r : Request, W -> Response r * W.

Fixpoint run {W A : Type} (h : Handler W) (p : Prog A) (w : W) : A * W :=
  match p with
  | Ret a => (a, w)
  | Vis r k => let (x, w') := h r w in run h (k x) w'
  end.

(** The requests a program issues against a handler, in order. *)
Fixpoint trace {W A : Type} (h : Handler W) (p : Prog A) (w : W) : list Request :=
  match p with
  | Ret _ => []
  | Vis r k => let (x, w') := h r w in r :: trace h (k x) w'
  end.

End Fleet.

Arguments Ret {deps A} a.
Arguments Vis {deps A} r k.

Notation "x <- p ;; q" := (bind p (fun x => q))
  (at level 61, p at next level, right associativity).
Notation "' pat <- p ;; q" := (bind p (fun x => match x with pat => q end))
  (at level 61, pat pattern, p at next level, right associativity).

Section Package.

Context {deps : Deps}.

(** ** The package *)

(** [DefaultConfig]: [url.Parse] of file:///var/run/fleet.sock gives the
    scheme, an empty host and the path; [http.DefaultClient] has no
    transport set. *)
Definition DefaultConfig : Config :=
  {| Client := {| Client_Transport := None |};
     Endpoint := {| Scheme := "file"; Host := ""; Path := "/var/run/fleet.sock" |} |}.

(** The end of [NewFleet], after the switch: bind the transport into the
    client, build the API client, wrap it. *)
Definition NewFleet_bind (config : Config) (trans : RoundTripper)
  : Prog (option fleet * option error) :=
  let config :=
    {| Client := {| Client_Transport := Some trans |};
       Endpoint := Endpoint config |} in
  '(client, err) <- call (NewHTTPClient (Client config) (Endpoint config)) ;;
  match err with
  | Some err => Ret (None, Some (maskAny err))
  | None => Ret (Some {| fleet_Config := config; fleet_Client := client |}, None)
  end.

Definition NewFleet (config : Config) : Prog (option fleet * option error) :=
  let scheme := Scheme (Endpoint config) in
  if (scheme =? "unix") || (scheme =? "file") then
    if (0 <? String.length (Host (Endpoint config)))%nat then
      Ret (None,
           Some (maskAny (Errorf "unable to connect to host %q with scheme %q"
                                 [Host (Endpoint config); Scheme (Endpoint config)])))
    else
      let sockPath := Path (Endpoint config) in
      let config :=
        {| Client := Client config;
           Endpoint := {| Scheme := Scheme (Endpoint config);
                          Host := Host (Endpoint config);
                          Path := "" |} |} in
      let config :=
        {| Client := Client config;
           Endpoint := {| Scheme := "http";
                          Host := Host (Endpoint config);
                          Path := Path (Endpoint config) |} |} in
      let config :=
        {| Client := Client config;
           Endpoint := {| Scheme := Scheme (Endpoint config);
                          Host := "domain-sock";
                          Path := Path (Endpoint config) |} |} in
      let trans :=
        Transport (fun s t => {| network := "unix"; address := sockPath |}) in
      NewFleet_bind config trans
  else if (scheme =? "http") || (scheme =? "https") then
    NewFleet_bind config DefaultTransport
  else
    Ret (None,
         Some (maskAny (Errorf "invalid scheme in fleet endpoint: %s"
                               [Scheme (Endpoint config)]))).

(** What the HTTP layer does when it needs a connection: through a
    transport whose [Dial] is set it calls the dial function with the
    network and address of the request; the standard transport dials that
    network and address itself. *)
Definition dial (trans : RoundTripper) (s t : string)
  : Prog (option Conn * option error) :=
  match trans with
  | Transport Dial => call (NetDial (Dial s t))
  | DefaultTransport => call (NetDial {| network := s; address := t |})
  end.

Definition Submit (f : fleet) (name content : string) : Prog (option error) :=
  let (unitFile, err) := NewUnitFile content in
  match err with
  | Some err => Ret (Some (maskAny err))
  | None =>
    let unit :=
      {| Unit_Name := name;
         Unit_Options := MapUnitFileToSchemaUnitOptions unitFile;
         Unit_DesiredState := "loaded";
         Unit_CurrentState := "" |} in
    err <- call (CreateUnit (fleet_Client f) unit) ;;
    match err with
    | Some err => Ret (Some (maskAny err))
    | None => Ret None
    end
  end.

Definition Start (f : fleet) (name : string) : Prog (option error) :=
  err <- call (SetUnitTargetState (fleet_Client f) name unitStateLaunched) ;;
  match err with
  | Some err => Ret (Some (maskAny err))
  | None => Ret None
  end.

Definition Stop (f : fleet) (name : string) : Prog (option error) :=
  err <- call (SetUnitTargetState (fleet_Client f) name unitStateLoaded) ;;
  match err with
  | Some err => Ret (Some (maskAny err))
  | None => Ret None
  end.

Definition Destroy (f : fleet) (name : string) : Prog (option error) :=
  err <- call (DestroyUnit (fleet_Client f) name) ;;
  match err with
  | Some err => Ret (Some (maskAny err))
  | None => Ret None
  end.

(** The scan of [ipFromUnitState]: the first machine with the ID. *)
Definition findMachine (machineID : string) (machineStates : list schema_Machine)
  : option schema_Machine :=
  find (fun ms => machineID =? Machine_ID ms) machineStates.

Definition ipFromUnitState (f : fleet) (unitState : schema_UnitState)
  : Prog (net_IP * option error) :=
  '(machineStates, err) <- call (Machines (fleet_Client f)) ;;
  match err with
  | Some err => Ret ([], Some (maskAny err))
  | None =>
    match findMachine (UnitState_MachineID unitState) machineStates with
    | Some ms => Ret (ParseIP (Machine_PublicIP ms), None)
    | None => Ret ([], Some (maskAny ipNotFoundError))
    end
  end.

(** The first loop of [GetStatus]: the first unit with the name. *)
Definition findUnit (name : string) (fleetUnits : list schema_Unit)
  : option schema_Unit :=
  find (fun fu => name =? Unit_Name fu) fleetUnits.

(** The second loop: the unit states with the name, in order. *)
Definition findUnitStates (name : string) (fleetUnitStates : list schema_UnitState)
  : list schema_UnitState :=
  filter (fun fus => name =? UnitState_Name fus) fleetUnitStates.

(** The third loop, over [foundFleetUnitStates], with [ourUnitStatus] as
    it stands when the loop reaches the record. *)
Fixpoint aggregate (f : fleet) (foundFleetUnitStates : list schema_UnitState)
    (ourUnitStatus : UnitStatus) : Prog (UnitStatus * option error) :=
  match foundFleetUnitStates with
  | [] => Ret (ourUnitStatus, None)
  | ffus :: rest =>
    '(IP, err) <- ipFromUnitState f ffus ;;
    match err with
    | Some err => Ret (UnitStatus_zero, Some (maskAny err))
    | None =>
      let ourMachineStatus :=
        {| ID := UnitState_MachineID ffus;
           IP := IP;
           SystemdActive := UnitState_SystemdActiveState ffus |} in
      aggregate f rest
        {| Current := Current ourUnitStatus;
           Desired := Desired ourUnitStatus;
           Machine := Machine ourUnitStatus ++ [ourMachineStatus] |}
    end
  end.

Definition GetStatus (f : fleet) (name : string) : Prog (UnitStatus * option error) :=
  '(fleetUnits, err) <- call (Units (fleet_Client f)) ;;
  match err with
  | Some err => Ret (UnitStatus_zero, Some (maskAny err))
  | None =>
    match findUnit name fleetUnits with
    | None => Ret (UnitStatus_zero, Some (maskAny unitNotFoundError))
    | Some foundFleetUnit =>
      '(fleetUnitStates, err) <- call (UnitStates (fleet_Client f)) ;;
      match err with
      | Some err => Ret (UnitStatus_zero, Some (maskAny err))
      | None =>
        let foundFleetUnitStates := findUnitStates name fleetUnitStates in
        let ourUnitStatus :=
          {| Current := Unit_CurrentState foundFleetUnit;
             Desired := Unit_DesiredState foundFleetUnit;
             Machine := [] |} in
        aggregate f foundFleetUnitStates ourUnitStatus
      end
    end
  end.

End Package.

Section Variant.

Context {deps : Deps}.

(** ** The join on a fetched Machine collection

    The scan and the parse of [ipFromUnitState], on a collection that has
    been fetched. *)

Definition ipFromMachines (machineStates : list schema_Machine)
    (unitState : schema_UnitState) : net_IP * option error :=
  match findMachine (UnitState_MachineID unitState) machineStates with
  | Some ms => (ParseIP (Machine_PublicIP ms), None)
  | None => ([], Some (maskAny ipNotFoundError))
  end.

(** What the loop body appends for a resolved record. *)
Definition entry (machineStates : list schema_Machine) (ffus : schema_UnitState)
  : MachineStatus :=
  {| ID := UnitState_MachineID ffus;
     IP := fst (ipFromMachines machineStates ffus);
     SystemdActive := UnitState_SystemdActiveState ffus |}.

Definition resolvable (machineStates : list schema_Machine) (ffus : schema_UnitState)
  : bool :=
  match findMachine (UnitState_MachineID ffus) machineStates with
  | Some _ => true
  | None => false
  end.

(** ** The fetch-once variant of the specification

    Sections 4.3 and 9 of the specification describe a reimplementation
    that fetches the Machine collection once per [GetStatus] call and
    resolves every matching unit state against that one collection.
    [aggregate_once] and [GetStatus_fetch_once] follow those words, not the
    source; they are what [GetStatus] is compared with. *)

Fixpoint aggregate_once (machineStates : list schema_Machine)
    (foundFleetUnitStates : list schema_UnitState)
    (ourUnitStatus : UnitStatus) : UnitStatus * option error :=
  match foundFleetUnitStates with
  | [] => (ourUnitStatus, None)
  | ffus :: rest =>
    match ipFromMachines machineStates ffus with
    | (_, Some err) => (UnitStatus_zero, Some (maskAny err))
    | (IP, None) =>
      aggregate_once machineStates rest
        {| Current := Current ourUnitStatus;
           Desired := Desired ourUnitStatus;
           Machine := Machine ourUnitStatus ++
                      [{| ID := UnitState_MachineID ffus;
                          IP := IP;
                          SystemdActive := UnitState_SystemdActiveState ffus |}] |}
    end
  end.

Definition GetStatus_fetch_once (f : fleet) (name : string)
  : Prog (UnitStatus * option error) :=
  '(fleetUnits, err) <- call (Units (fleet_Client f)) ;;
  match err with
  | Some err => Ret (UnitStatus_zero, Some (maskAny err))
  | None =>
    match findUnit name fleetUnits with
    | None => Ret (UnitStatus_zero, Some (maskAny unitNotFoundError))
    | Some foundFleetUnit =>
      '(fleetUnitStates, err) <- call (UnitStates (fleet_Client f)) ;;
      match err with
      | Some err => Ret (UnitStatus_zero, Some (maskAny err))
      | None =>
        '(machineStates, err) <- call (Machines (fleet_Client f)) ;;
        match err with
        | Some err => Ret (UnitStatus_zero, Some (maskAny err))
        | None =>
          Ret (aggregate_once machineStates (findUnitStates name fleetUnitStates)
                 {| Current := Unit_CurrentState foundFleetUnit;
                    Desired := Unit_DesiredState foundFleetUnit;
                    Machine := [] |})
        end
      end
    end
  end.

(** What a caller can observe of a [GetStatus] result: the status, and of
    an error its cause (hence its classification). *)
Definition observe (r : UnitStatus * option error) : UnitStatus * option error :=
  (fst r, option_map Cause (snd r)).

Definition observably_equal (r1 r2 : UnitStatus * option error) : Prop :=
  observe r1 = observe r2.

(** The Machine collection does not change between fetches: [Inv] is a
    set of worlds, closed under Machine fetches, in which every Machine
    fetch has the answer [M]. *)
Definition Machines_stable {W : Type} (h : Handler W) (c : API)
    (Inv : W -> Prop) (M : list schema_Machine * option error) : Prop :=
  forall w, Inv w ->
    fst (h (Machines c) w) = M /\ Inv (snd (h (Machines c) w)).

End Variant.

Section Remote.

Context {deps : Deps}.

(** ** A remote service *)

(** Modelled from the spec: the scheduler is reached only through its API
    (section 6): list-units, list-unit-states and list-machines return the
    collections; create-unit adds a unit, the service being the authority on
    the uniqueness of names; set-unit-desired-state writes the desired state
    of the named unit and fails when there is no such unit (section 4.2);
    delete-unit removes the unit.  A call can also fail in transport
    (section 7): [faults] says which requests do, and the service does not
    see those. *)
Record Remote : Type := {
  remote_units : list schema_Unit;
  remote_unit_states : list schema_UnitState;
  remote_machines : list schema_Machine;
  faults : Request -> option error
}.

(** What the machine of the client answers: the constructor of the API
    client and [net.Dial]. *)
Record Sys : Type := {
  sys_NewHTTPClient : http_Client -> url_URL -> API * option error;
  sys_Dial : net_Dial -> option Conn * option error
}.

Definition has_unit (name : string) (units : list schema_Unit) : bool :=
  existsb (fun u => name =? Unit_Name u) units.

Definition with_units (w : Remote) (units : list schema_Unit) : Remote :=
  {| remote_units := units;
     remote_unit_states := remote_unit_states w;
     remote_machines := remote_machines w;
     faults := faults w |}.

Definition write_desired (name target : string) (u : schema_Unit) : schema_Unit :=
  if name =? Unit_Name u then
    {| Unit_Name := Unit_Name u;
       Unit_Options := Unit_Options u;
       Unit_DesiredState := target;
       Unit_CurrentState := Unit_CurrentState u |}
  else u.

Definition no_such_unit : error := Foreign "unit does not exist".
Definition unit_exists : error := Foreign "unit already exists".

(** The handler: a request to the cluster that fails in transport is
    answered with the error and leaves the cluster as it is; any other is
    served.  The constructor of the API client and [net.Dial] are local. *)
Definition remote (sys : Sys) : Handler Remote :=
  fun r =>
    match r as r0 return Remote -> Response r0 * Remote with
    | NewHTTPClient c ep => fun w => (sys_NewHTTPClient sys c ep, w)
    | NetDial d => fun w => (sys_Dial sys d, w)
    | Units c => fun w =>
        match faults w (Units c) with
        | Some err => (([], Some err), w)
        | None => ((remote_units w, None), w)
        end
    | UnitStates c => fun w =>
        match faults w (UnitStates c) with
        | Some err => (([], Some err), w)
        | None => ((remote_unit_states w, None), w)
        end
    | Machines c => fun w =>
        match faults w (Machines c) with
        | Some err => (([], Some err), w)
        | None => ((remote_machines w, None), w)
        end
    | CreateUnit c u => fun w =>
        match faults w (CreateUnit c u) with
        | Some err => (Some err, w)
        | None =>
          if has_unit (Unit_Name u) (remote_units w)
          then (Some unit_exists, w)
          else (None, with_units w (remote_units w ++ [u]))
        end
    | SetUnitTargetState c name target => fun w =>
        match faults w (SetUnitTargetState c name target) with
        | Some err => (Some err, w)
        | None =>
          if has_unit name (remote_units w)
          then (None, with_units w (map (write_desired name target) (remote_units w)))
          else (Some no_such_unit, w)
        end
    | DestroyUnit c name => fun w =>
        match faults w (DestroyUnit c name) with
        | Some err => (Some err, w)
        | None =>
          if has_unit name (remote_units w)
          then (None,
                with_units w
                  (filter (fun u => negb (name =? Unit_Name u)) (remote_units w)))
          else (Some no_such_unit, w)
        end
    end.

(** The desired state the service holds for a name. *)
Definition desired_state (w : Remote) (name : string) : option string :=
  option_map Unit_DesiredState (findUnit name (remote_units w)).

(** What the package relies on in any service, seen through an observation
    [desired] of its worlds: a desired-state write that is answered without
    error has taken effect. *)
Definition acknowledges_writes {W : Type} (h : Handler W)
    (desired : W -> string -> option string) : Prop :=
  forall (c : API) (name target : string) (w w' : W),
    h (SetUnitTargetState c name target) w = (None, w') ->
    desired w' name = Some target.

End Remote.

(** ** A laboratory

    An instance of the collaborators and a small cluster, to run the
    programs on.  The parser of the laboratory knows the two addresses of
    the cluster and answers the nil IP to anything else; its unit files are
    texts that open a section. *)

Definition v4 (a b c d : Byte.byte) : net_IP :=
  [Byte.x00; Byte.x00; Byte.x00; Byte.x00; Byte.x00; Byte.x00; Byte.x00; Byte.x00;
   Byte.x00; Byte.x00; Byte.xff; Byte.xff; a; b; c; d].

Definition lab_ParseIP (s : string) : net_IP :=
  if s =? "10.0.0.1" then v4 Byte.x0a Byte.x00 Byte.x00 Byte.x01
  else if s =? "10.0.0.2" then v4 Byte.x0a Byte.x00 Byte.x00 Byte.x02
  else [].

Definition lab_NewUnitFile (content : string) : string * option error :=
  if String.prefix "[" content then (content, None)
  else ("", Some (Foreign "unable to parse unit file")).

Definition lab : Deps :=
  {| API := nat;
     Conn := nat;
     UnitFile := string;
     UnitOption := string;
     ParseIP := lab_ParseIP;
     NewUnitFile := lab_NewUnitFile;
     MapUnitFileToSchemaUnitOptions := fun unitFile => [unitFile] |}.

Definition lab_sys : @Sys lab :=
  {| sys_NewHTTPClient := fun _ _ => (7 : @API lab, None);
     sys_Dial := fun _ => (Some (3 : @Conn lab), None) |}.

Definition lab_fleet : @fleet lab :=
  {| fleet_Config := DefaultConfig; fleet_Client := 7 : @API lab |}.

Definition lab_unit (name desired current : string) : @schema_Unit lab :=
  {| Unit_Name := name;
     Unit_Options := [];
     Unit_DesiredState := desired;
     Unit_CurrentState := current |}.

Definition lab_db : @schema_Unit lab := lab_unit "db.service" "loaded" "loaded".
Definition lab_web : @schema_Unit lab := lab_unit "web.service" "launched" "launched".
Definition lab_cron : @schema_Unit lab := lab_unit "cron.service" "launched" "inactive".

Definition lab_units : list (@schema_Unit lab) := [lab_db; lab_web; lab_cron].

Definition lab_web_on_m2 : schema_UnitState :=
  {| UnitState_Name := "web.service"; UnitState_MachineID := "m2";
     UnitState_SystemdActiveState := "active" |}.
Definition lab_db_on_m3 : schema_UnitState :=
  {| UnitState_Name := "db.service"; UnitState_MachineID := "m3";
     UnitState_SystemdActiveState := "inactive" |}.
Definition lab_web_on_m1 : schema_UnitState :=
  {| UnitState_Name := "web.service"; UnitState_MachineID := "m1";
     UnitState_SystemdActiveState := "failed" |}.

Definition lab_unit_states : list schema_UnitState :=
  [lab_web_on_m2; lab_db_on_m3; lab_web_on_m1].

Definition lab_m1 : schema_Machine :=
  {| Machine_ID := "m1"; Machine_PublicIP := "10.0.0.1" |}.
Definition lab_m2 : schema_Machine :=
  {| Machine_ID := "m2"; Machine_PublicIP := "10.0.0.2" |}.
Definition lab_m3 : schema_Machine :=
  {| Machine_ID := "m3"; Machine_PublicIP := "not an address" |}.

Definition lab_machines : list schema_Machine := [lab_m1; lab_m2; lab_m3].

Definition no_faults : @Request lab -> option error := fun _ => None.

(** The Machine fetch times out; everything else goes through. *)
Definition machines_down : @Request lab -> option error :=
  fun r =>
    match r with
    | Machines _ => Some (Foreign "timeout")
    | _ => None
    end.

(** The endpoint of the comment in [NewFleet]: unix://var/run/fleet.sock,
    which [url.Parse] reads as host var and path /run/fleet.sock. *)
Definition missing_slash_config : Config :=
  {| Client := {| Client_Transport := None |};
     Endpoint := {| Scheme := "unix"; Host := "var"; Path := "/run/fleet.sock" |} |}.

Definition lab_cluster : @Remote lab :=
  {| remote_units := lab_units;
     remote_unit_states := lab_unit_states;
     remote_machines := lab_machines;
     faults := no_faults |}.

(** The same cluster seen through a transport on which the Machine fetch
    fails. *)
Definition lab_cluster_machines_down : @Remote lab :=
  {| remote_units := lab_units;
     remote_unit_states := lab_unit_states;
     remote_machines := lab_machines;
     faults := machines_down |}.

(** The cluster before machine m1 has joined. *)
Definition lab_cluster_without_m1 : @Remote lab :=
  {| remote_units := lab_units;
     remote_unit_states := lab_unit_states;
     remote_machines := [lab_m2; lab_m3];
     faults := no_faults |}.

(** ** The collections, described without the scans

    What the joins are to find, said on the fetched collections
    themselves. *)

(** [records] are the unit states of [fleetUnitStates] that carry the
    name, all of them and in the order of the collection. *)
Inductive records_of (name : string)
  : list schema_UnitState -> list schema_UnitState -> Prop :=
| records_of_nil : records_of name [] []
| records_of_keep (s : schema_UnitState) fleetUnitStates records :
    UnitState_Name s = name ->
    records_of name fleetUnitStates records ->
    records_of name (s :: fleetUnitStates) (s :: records)
| records_of_skip (s : schema_UnitState) fleetUnitStates records :
    UnitState_Name s <> name ->
    records_of name fleetUnitStates records ->
    records_of name (s :: fleetUnitStates) records.

(** [ms] is the first machine of the collection with the ID. *)
Definition first_machine (machineID : string)
    (machineStates : list schema_Machine) (ms : schema_Machine) : Prop :=
  exists pre post,
    machineStates = pre ++ ms :: post /\
    (forall m, In m pre -> Machine_ID m <> machineID) /\
    Machine_ID ms = machineID.

(** db.service on a second machine, and the cluster with db.service on m3
    and m2. *)
Definition lab_db_on_m2 : schema_UnitState :=
  {| UnitState_Name := "db.service"; UnitState_MachineID := "m2";
     UnitState_SystemdActiveState := "active" |}.

Definition lab_cluster_db_spread : @Remote lab :=
  {| remote_units := lab_units;
     remote_unit_states := [lab_db_on_m3; lab_web_on_m2; lab_db_on_m2];
     remote_machines := lab_machines;
     faults := no_faults |}.

(** The texts the parser of the laboratory takes for addresses. *)
Definition lab_is_address (text : string) : Prop :=
  text = "10.0.0.1" \/ text = "10.0.0.2".

(** ** Observations on requests and endpoints *)

(** The endpoints [NewFleet] goes on with: a socket scheme without host,
    or a network scheme. *)
Definition endpoint_ok (ep : url_URL) : bool :=
  (((Scheme ep =? "unix") || (Scheme ep =? "file")) && (Host ep =? ""))
  || ((Scheme ep =? "http") || (Scheme ep =? "https")).

Section Observations.

Context {deps : Deps}.

Definition is_NetDial (r : Request) : bool :=
  match r with
  | NetDial _ => true
  | _ => false
  end.

Definition is_NewHTTPClient (r : Request) : bool :=
  match r with
  | NewHTTPClient _ _ => true
  | _ => false
  end.

(** The three fetches. *)
Definition is_fetch (r : Request) : bool :=
  match r with
  | Units _ | UnitStates _ | Machines _ => true
  | _ => false
  end.

(** A request that asks for the desired state inactive. *)
Definition asks_inactive (r : Request) : bool :=
  match r with
  | CreateUnit _ u => Unit_DesiredState u =? unitStateInactive
  | SetUnitTargetState _ _ target => target =? unitStateInactive
  | _ => false
  end.

(** A service on which a unit whose deletion was acknowledged is in no
    Unit collection fetched right after. *)
Definition forgets_destroyed {W : Type} (h : Handler W) : Prop :=
  forall (c c' : API) (name : string) (w w1 w2 : W) fleetUnits,
    h (DestroyUnit c name) w = (None, w1) ->
    h (Units c') w1 = ((fleetUnits, None), w2) ->
    forall u, In u fleetUnits -> Unit_Name u <> name.

End Observations.

(** More of the laboratory: a network endpoint, an endpoint of a scheme
    the package does not know, and transports on which the first or the
    second fetch fails. *)
Definition lab_https_config : Config :=
  {| Client := {| Client_Transport := None |};
     Endpoint := {| Scheme := "https"; Host := "fleet.example.com:49153";
                    Path := "/fleet" |} |}.

Definition lab_ftp_config : Config :=
  {| Client := {| Client_Transport := None |};
     Endpoint := {| Scheme := "ftp"; Host := "fleet.example.com"; Path := "" |} |}.

Definition units_down : @Request lab -> option error :=
  fun r =>
    match r with
    | Units _ => Some (Foreign "connection refused")
    | _ => None
    end.

Definition unit_states_down : @Request lab -> option error :=
  fun r =>
    match r with
    | UnitStates _ => Some (Foreign "connection reset")
    | _ => None
    end.

Definition lab_cluster_behind (flt : @Request lab -> option error) : @Remote lab :=
  {| remote_units := lab_units;
     remote_unit_states := lab_unit_states;
     remote_machines := lab_machines;
     faults := flt |}.

(** Two machines answer to the ID m1. *)
Definition lab_m1_again : schema_Machine :=
  {| Machine_ID := "m1"; Machine_PublicIP := "10.0.0.2" |}.

(** The cluster with a second machine of the ID m1 after the first. *)
Definition lab_cluster_two_m1 : @Remote lab :=
  {| remote_units := lab_units;
     remote_unit_states := lab_unit_states;
     remote_machines := [lab_m2; lab_m1; lab_m1_again; lab_m3];
     faults := no_faults |}.

(** The client [NewFleet] builds of [DefaultConfig] in the laboratory. *)
Definition lab_socket_fleet : @fleet lab :=
  {| fleet_Config :=
       {| Client :=
            {| Client_Transport :=
                 Some (Transport (fun _ _ =>
                         {| network := "unix"; address := "/var/run/fleet.sock" |})) |};
          Endpoint := {| Scheme := "http"; Host := "domain-sock"; Path := "" |} |};
     fleet_Client := 7 : @API lab |}.

(** * Properties *)

Section Proofs.

Context {deps : Deps}.

(** ** Running programs *)

Lemma run_bind {W A B : Type} (h : Handler W) (p : Prog A) (k : A -> Prog B) (w : W) :
  run h (bind p k) w = run h (k (fst (run h p w))) (snd (run h p w)).
Proof.
  revert w; induction p as [a | r k' IH]; intros w; simpl.
  - reflexivity.
  - destruct (h r w) as [x w']. apply IH.
Qed.

Lemma trace_bind {W A B : Type} (h : Handler W) (p : Prog A) (k : A -> Prog B) (w : W) :
  trace h (bind p k) w =
  trace h p w ++ trace h (k (fst (run h p w))) (snd (run h p w)).
Proof.
  revert w; induction p as [a | r k' IH]; intros w; simpl.
  - reflexivity.
  - destruct (h r w) as [x w']. simpl. f_equal. apply IH.
Qed.

Lemma run_call {W : Type} (h : Handler W) (r : Request) (w : W) :
  run h (call r) w = h r w.
Proof. unfold call; simpl. destruct (h r w); reflexivity. Qed.

(** ** Scans *)

Lemma length_zero_empty (s : string) : String.length s = 0 <-> s = "".
Proof. destruct s; simpl; split; intros H; congruence. Qed.

Lemma findUnit_Some name fleetUnits fu :
  findUnit name fleetUnits = Some fu -> In fu fleetUnits /\ Unit_Name fu = name.
Proof.
  unfold findUnit; intros H. apply find_some in H as [Hin Heq].
  apply String.eqb_eq in Heq. auto.
Qed.

Lemma findUnit_None name fleetUnits :
  findUnit name fleetUnits = None <->
  (forall u, In u fleetUnits -> Unit_Name u <> name).
Proof.
  unfold findUnit; split.
  - intros H u Hin Heq.
    pose proof (find_none _ _ H u Hin) as Hn. simpl in Hn.
    rewrite Heq, String.eqb_refl in Hn. discriminate.
  - intros H. induction fleetUnits as [| u us IH]; simpl; [reflexivity |].
    destruct (String.eqb_spec name (Unit_Name u)) as [Heq | Hne].
    + exfalso. apply (H u); [left; reflexivity | auto].
    + apply IH. intros u' Hin. apply H. right; exact Hin.
Qed.

Lemma findUnit_present name fleetUnits :
  (exists u, In u fleetUnits /\ Unit_Name u = name) ->
  exists fu, findUnit name fleetUnits = Some fu.
Proof.
  intros [u [Hin Heq]]. destruct (findUnit name fleetUnits) as [fu |] eqn:E.
  - eauto.
  - exfalso. exact (proj1 (findUnit_None _ _) E u Hin Heq).
Qed.

Lemma findMachine_Some machineID machineStates ms :
  findMachine machineID machineStates = Some ms ->
  In ms machineStates /\ Machine_ID ms = machineID.
Proof.
  unfold findMachine; intros H. apply find_some in H as [Hin Heq].
  apply String.eqb_eq in Heq. auto.
Qed.

Lemma findMachine_None machineID machineStates :
  findMachine machineID machineStates = None <->
  (forall ms, In ms machineStates -> Machine_ID ms <> machineID).
Proof.
  unfold findMachine; split.
  - intros H ms Hin Heq.
    pose proof (find_none _ _ H ms Hin) as Hn. simpl in Hn.
    rewrite Heq, String.eqb_refl in Hn. discriminate.
  - intros H. induction machineStates as [| m ms IH]; simpl; [reflexivity |].
    destruct (String.eqb_spec machineID (Machine_ID m)) as [Heq | Hne].
    + exfalso. apply (H m); [left; reflexivity | auto].
    + apply IH. intros m' Hin. apply H. right; exact Hin.
Qed.

Lemma findUnitStates_In name fleetUnitStates fus :
  In fus (findUnitStates name fleetUnitStates) <->
  In fus fleetUnitStates /\ UnitState_Name fus = name.
Proof.
  unfold findUnitStates. rewrite filter_In, String.eqb_eq.
  split; intros [H1 H2]; auto.
Qed.

(** ** One resolution *)

Lemma run_ipFromUnitState {W : Type} (h : Handler W) (f : fleet)
    (unitState : schema_UnitState) (w w' : W) machineStates :
  h (Machines (fleet_Client f)) w = ((machineStates, None), w') ->
  run h (ipFromUnitState f unitState) w = (ipFromMachines machineStates unitState, w').
Proof.
  intros H. unfold ipFromUnitState, ipFromMachines.
  rewrite run_bind, run_call, H; simpl.
  destruct (findMachine _ _); reflexivity.
Qed.

Lemma run_ipFromUnitState_failed {W : Type} (h : Handler W) (f : fleet)
    (unitState : schema_UnitState) (w w' : W) machineStates err :
  h (Machines (fleet_Client f)) w = ((machineStates, Some err), w') ->
  run h (ipFromUnitState f unitState) w = (([], Some (maskAny err)), w').
Proof.
  intros H. unfold ipFromUnitState.
  rewrite run_bind, run_call, H; reflexivity.
Qed.

Lemma trace_ipFromUnitState {W : Type} (h : Handler W) (f : fleet)
    (unitState : schema_UnitState) (w : W) :
  trace h (ipFromUnitState f unitState) w = [Machines (fleet_Client f)].
Proof.
  unfold ipFromUnitState, call; simpl.
  destruct (h (Machines (fleet_Client f)) w) as [[machineStates [err |]] w']; simpl.
  - reflexivity.
  - destruct (findMachine _ _); reflexivity.
Qed.

(** ** The loop of [GetStatus] *)

Lemma aggregate_once_resolved machineStates ffus ourUnitStatus :
  forallb (resolvable machineStates) ffus = true ->
  aggregate_once machineStates ffus ourUnitStatus =
  ({| Current := Current ourUnitStatus;
      Desired := Desired ourUnitStatus;
      Machine := Machine ourUnitStatus ++ map (entry machineStates) ffus |}, None).
Proof.
  revert ourUnitStatus.
  induction ffus as [| s rest IH]; intros st H; simpl in *.
  - rewrite app_nil_r. destruct st; reflexivity.
  - apply andb_true_iff in H as [Hs Hrest].
    unfold resolvable in Hs. unfold entry at 1. unfold ipFromMachines.
    destruct (findMachine (UnitState_MachineID s) machineStates) as [m |];
      [| discriminate].
    rewrite (IH _ Hrest); simpl. rewrite <- app_assoc. reflexivity.
Qed.

Lemma aggregate_once_unresolved machineStates ffus ourUnitStatus :
  forallb (resolvable machineStates) ffus = false ->
  aggregate_once machineStates ffus ourUnitStatus =
  (UnitStatus_zero, Some (maskAny (maskAny ipNotFoundError))).
Proof.
  revert ourUnitStatus.
  induction ffus as [| s rest IH]; intros st H; simpl in *.
  - discriminate.
  - unfold resolvable in H. unfold ipFromMachines.
    destruct (findMachine (UnitState_MachineID s) machineStates) as [m |].
    + apply IH. exact H.
    + reflexivity.
Qed.

Lemma run_aggregate_stable {W : Type} (h : Handler W) (f : fleet)
    (Inv : W -> Prop) machineStates ffus ourUnitStatus (w : W) :
  Machines_stable h (fleet_Client f) Inv (machineStates, None) ->
  Inv w ->
  fst (run h (aggregate f ffus ourUnitStatus) w) =
    aggregate_once machineStates ffus ourUnitStatus
  /\ Inv (snd (run h (aggregate f ffus ourUnitStatus) w)).
Proof.
  intros Hst. revert ourUnitStatus w.
  induction ffus as [| s rest IH]; intros st w Hw; cbn [aggregate].
  - simpl. auto.
  - destruct (Hst w Hw) as [Hans Hnext].
    destruct (h (Machines (fleet_Client f)) w) as [ans w'] eqn:E.
    simpl in Hans, Hnext; subst ans.
    rewrite run_bind, (run_ipFromUnitState h f s w E); simpl.
    destruct (ipFromMachines machineStates s) as [ip [err |]]; simpl.
    + auto.
    + apply IH. exact Hnext.
Qed.

Lemma run_aggregate_failed {W : Type} (h : Handler W) (f : fleet)
    (Inv : W -> Prop) machineStates err ffus ourUnitStatus (w : W) :
  Machines_stable h (fleet_Client f) Inv (machineStates, Some err) ->
  Inv w ->
  ffus <> [] ->
  fst (run h (aggregate f ffus ourUnitStatus) w) =
    (UnitStatus_zero, Some (maskAny (maskAny err))).
Proof.
  intros Hst Hw Hne. destruct ffus as [| s rest]; [congruence |].
  cbn [aggregate].
  destruct (Hst w Hw) as [Hans _].
  destruct (h (Machines (fleet_Client f)) w) as [ans w'] eqn:E.
  simpl in Hans; subst ans.
  rewrite run_bind, (run_ipFromUnitState_failed h f s w E). reflexivity.
Qed.

(** Whatever the handler: a run of the loop that ends without error has
    appended one entry per record, in order, and kept the two states. *)
Lemma run_aggregate_ok {W : Type} (h : Handler W) (f : fleet) ffus :
  forall ourUnitStatus (w w' : W) st,
  run h (aggregate f ffus ourUnitStatus) w = ((st, None), w') ->
  Current st = Current ourUnitStatus /\
  Desired st = Desired ourUnitStatus /\
  exists added,
    Machine st = Machine ourUnitStatus ++ added /\
    map ID added = map UnitState_MachineID ffus /\
    map SystemdActive added = map UnitState_SystemdActiveState ffus.
Proof.
  induction ffus as [| s rest IH]; intros st0 w w' st H; cbn [aggregate] in H.
  - simpl in H. inversion H; subst. repeat split; auto.
    exists []. rewrite app_nil_r. auto.
  - rewrite run_bind in H.
    destruct (run h (ipFromUnitState f s) w) as [[ip [err |]] w1]; simpl in H.
    + discriminate.
    + apply IH in H. simpl in H. destruct H as [Hc [Hd [added [Hm [Hid Hact]]]]].
      repeat split; auto.
      eexists (_ :: added). rewrite <- app_assoc in Hm. simpl in Hm.
      split; [exact Hm |]. simpl. rewrite Hid, Hact. auto.
Qed.

Lemma trace_aggregate {W : Type} (h : Handler W) (f : fleet) ffus :
  forall ourUnitStatus (w : W),
  Forall (fun r => r = Machines (fleet_Client f))
         (trace h (aggregate f ffus ourUnitStatus) w).
Proof.
  induction ffus as [| s rest IH]; intros st w; cbn [aggregate].
  - constructor.
  - rewrite trace_bind, trace_ipFromUnitState.
    apply Forall_app; split; [repeat constructor |].
    destruct (run h (ipFromUnitState f s) w) as [[ip [err |]] w1]; cbn [fst snd].
    + constructor.
    + apply IH.
Qed.

(** ** [GetStatus] up to its loop *)

Lemma run_GetStatus_found {W : Type} (h : Handler W) (f : fleet) name
    (w0 w1 w2 : W) fleetUnits fu fleetUnitStates :
  h (Units (fleet_Client f)) w0 = ((fleetUnits, None), w1) ->
  findUnit name fleetUnits = Some fu ->
  h (UnitStates (fleet_Client f)) w1 = ((fleetUnitStates, None), w2) ->
  run h (GetStatus f name) w0 =
  run h (aggregate f (findUnitStates name fleetUnitStates)
           {| Current := Unit_CurrentState fu;
              Desired := Unit_DesiredState fu;
              Machine := [] |}) w2.
Proof.
  intros HU Hfu HUS. unfold GetStatus.
  rewrite run_bind, run_call, HU; cbn [fst snd]. rewrite Hfu.
  rewrite run_bind, run_call, HUS; cbn [fst snd]. reflexivity.
Qed.

Lemma trace_GetStatus_found {W : Type} (h : Handler W) (f : fleet) name
    (w0 w1 w2 : W) fleetUnits fu fleetUnitStates :
  h (Units (fleet_Client f)) w0 = ((fleetUnits, None), w1) ->
  findUnit name fleetUnits = Some fu ->
  h (UnitStates (fleet_Client f)) w1 = ((fleetUnitStates, None), w2) ->
  trace h (GetStatus f name) w0 =
  Units (fleet_Client f) :: UnitStates (fleet_Client f) ::
  trace h (aggregate f (findUnitStates name fleetUnitStates)
             {| Current := Unit_CurrentState fu;
                Desired := Unit_DesiredState fu;
                Machine := [] |}) w2.
Proof.
  intros HU Hfu HUS. unfold GetStatus.
  rewrite trace_bind, run_call, HU; cbn [fst snd]. rewrite Hfu.
  rewrite trace_bind, run_call, HUS; cbn [fst snd].
  unfold call; cbn [trace]. rewrite HU, HUS. reflexivity.
Qed.

Lemma findUnitStates_none name l :
  (forall s, In s l -> UnitState_Name s <> name) -> findUnitStates name l = [].
Proof.
  intros H. induction l as [| s l IH]; simpl; [reflexivity |].
  destruct (String.eqb_spec name (UnitState_Name s)) as [Heq | Hne].
  - exfalso. apply (H s); [left; reflexivity | auto].
  - apply IH. intros s' Hin. apply H. right; exact Hin.
Qed.

Lemma findUnitStates_two name pre mid post s1 s2 :
  UnitState_Name s1 = name ->
  UnitState_Name s2 = name ->
  (forall s, In s (pre ++ mid ++ post) -> UnitState_Name s <> name) ->
  findUnitStates name (pre ++ s1 :: mid ++ s2 :: post) = [s1; s2].
Proof.
  intros H1 H2 Hothers. unfold findUnitStates.
  rewrite filter_app; simpl. rewrite filter_app; simpl.
  rewrite H1, H2, String.eqb_refl.
  fold (findUnitStates name pre) (findUnitStates name mid) (findUnitStates name post).
  rewrite !findUnitStates_none; [reflexivity | | |];
    intros s Hin; apply Hothers; rewrite !in_app_iff; auto.
Qed.

(** Whatever the handler, an error comes with the zero status: no entry
    resolved before the failure is handed out. *)
Lemma run_aggregate_error {W : Type} (h : Handler W) (f : fleet) ffus :
  forall ourUnitStatus (w : W) err,
  snd (fst (run h (aggregate f ffus ourUnitStatus) w)) = Some err ->
  fst (fst (run h (aggregate f ffus ourUnitStatus) w)) = UnitStatus_zero.
Proof.
  induction ffus as [| s rest IH]; intros st w err; cbn [aggregate].
  - simpl. discriminate.
  - rewrite run_bind.
    destruct (run h (ipFromUnitState f s) w) as [[ip [e |]] w1]; cbn [fst snd].
    + reflexivity.
    + apply IH.
Qed.

Lemma run_GetStatus_error {W : Type} (h : Handler W) (f : fleet) name (w : W) err :
  snd (fst (run h (GetStatus f name) w)) = Some err ->
  fst (fst (run h (GetStatus f name) w)) = UnitStatus_zero.
Proof.
  unfold GetStatus. rewrite run_bind, run_call.
  destruct (h (Units (fleet_Client f)) w) as [[fleetUnits [e |]] w1];
    cbn [fst snd]; [reflexivity |].
  destruct (findUnit name fleetUnits) as [fu |]; [| reflexivity].
  rewrite run_bind, run_call.
  destruct (h (UnitStates (fleet_Client f)) w1) as [[fleetUnitStates [e |]] w2];
    cbn [fst snd]; [reflexivity |].
  apply run_aggregate_error.
Qed.

(** ** Status aggregation *)

(** C1.  The Unit fetch answers a collection whose first unit of the name
    is [fu]; the UnitState fetch answers a collection in which exactly two
    records, [s1] before [s2], carry the name; the Machine fetch made for
    [s1] holds [m1] as its first machine with the ID of [s1], the one made
    for [s2] holds [m2] likewise.  Then [GetStatus] returns without error a
    status whose Machine sequence is of length 2: the entry of [s1], then
    the entry of [s2], each with the parsed public IP of its machine, whose
    ID is the machine ID of the record; Current and Desired are those of
    [fu]. *)
Theorem GetStatus_two_machines {W : Type} (h : Handler W) (f : fleet) name
    (w0 w1 w2 w3 w4 : W) fleetUnits fu pre mid post s1 s2 ms1 ms2 m1 m2 :
  h (Units (fleet_Client f)) w0 = ((fleetUnits, None), w1) ->
  findUnit name fleetUnits = Some fu ->
  h (UnitStates (fleet_Client f)) w1 = ((pre ++ s1 :: mid ++ s2 :: post, None), w2) ->
  UnitState_Name s1 = name ->
  UnitState_Name s2 = name ->
  (forall s, In s (pre ++ mid ++ post) -> UnitState_Name s <> name) ->
  h (Machines (fleet_Client f)) w2 = ((ms1, None), w3) ->
  h (Machines (fleet_Client f)) w3 = ((ms2, None), w4) ->
  findMachine (UnitState_MachineID s1) ms1 = Some m1 ->
  findMachine (UnitState_MachineID s2) ms2 = Some m2 ->
  exists st,
    run h (GetStatus f name) w0 = ((st, None), w4) /\
    Current st = Unit_CurrentState fu /\
    Desired st = Unit_DesiredState fu /\
    Machine st =
      [{| ID := UnitState_MachineID s1;
          IP := ParseIP (Machine_PublicIP m1);
          SystemdActive := UnitState_SystemdActiveState s1 |};
       {| ID := UnitState_MachineID s2;
          IP := ParseIP (Machine_PublicIP m2);
          SystemdActive := UnitState_SystemdActiveState s2 |}] /\
    List.length (Machine st) = 2 /\
    In fu fleetUnits /\ Unit_Name fu = name /\
    In m1 ms1 /\ Machine_ID m1 = UnitState_MachineID s1 /\
    In m2 ms2 /\ Machine_ID m2 = UnitState_MachineID s2.
Proof.
  intros HU Hfu HUS Hn1 Hn2 Hothers HM1 HM2 Hm1 Hm2.
  rewrite (run_GetStatus_found h f name w0 HU Hfu HUS).
  rewrite (@findUnitStates_two name pre mid post s1 s2 Hn1 Hn2 Hothers).
  cbn [aggregate].
  rewrite run_bind, (run_ipFromUnitState h f s1 w2 HM1).
  unfold ipFromMachines at 1 2. rewrite Hm1. cbn [fst snd].
  rewrite run_bind, (run_ipFromUnitState h f s2 w3 HM2).
  unfold ipFromMachines. rewrite Hm2. cbn [fst snd run].
  destruct (findUnit_Some _ _ Hfu) as [Hin Hname].
  destruct (findMachine_Some _ _ Hm1) as [Hin1 Hid1].
  destruct (findMachine_Some _ _ Hm2) as [Hin2 Hid2].
  eexists; split; [reflexivity |]. simpl. repeat split; auto.
Qed.

(** C2.  When no unit of the fetched Unit collection has the name,
    [GetStatus] returns the zero status and the masked
    [unitNotFoundError], which [IsUnitNotFound] recognises; the Unit fetch
    is the only request it makes, so that the contents of the UnitState and
    Machine collections play no part. *)
Theorem GetStatus_unit_absent {W : Type} (h : Handler W) (f : fleet) name
    (w0 w1 : W) fleetUnits :
  h (Units (fleet_Client f)) w0 = ((fleetUnits, None), w1) ->
  (forall u, In u fleetUnits -> Unit_Name u <> name) ->
  run h (GetStatus f name) w0 =
    ((UnitStatus_zero, Some (maskAny unitNotFoundError)), w1) /\
  IsUnitNotFound (maskAny unitNotFoundError) = true /\
  trace h (GetStatus f name) w0 = [Units (fleet_Client f)].
Proof.
  intros HU Habsent. apply findUnit_None in Habsent.
  unfold GetStatus. rewrite run_bind, trace_bind, run_call, HU; cbn [fst snd].
  rewrite Habsent. unfold call; cbn [trace run]. rewrite HU.
  repeat split; reflexivity.
Qed.

(** C3.  The unit is there, the UnitState fetch is answered, every Machine
    fetch answers the collection [machineStates], and some record [s] of
    the name has a machine ID that no machine of [machineStates] has.  Then
    [GetStatus] returns the zero status, not the entries resolved so far,
    and an error whose cause is [ipNotFoundError], whatever the other
    records of the name resolve to. *)
Theorem GetStatus_ip_not_found {W : Type} (h : Handler W) (f : fleet) name
    (Inv : W -> Prop) (w0 w1 w2 : W) fleetUnits fu fleetUnitStates machineStates s :
  h (Units (fleet_Client f)) w0 = ((fleetUnits, None), w1) ->
  findUnit name fleetUnits = Some fu ->
  h (UnitStates (fleet_Client f)) w1 = ((fleetUnitStates, None), w2) ->
  Machines_stable h (fleet_Client f) Inv (machineStates, None) ->
  Inv w2 ->
  In s fleetUnitStates ->
  UnitState_Name s = name ->
  (forall ms, In ms machineStates -> Machine_ID ms <> UnitState_MachineID s) ->
  fst (run h (GetStatus f name) w0) =
    (UnitStatus_zero, Some (maskAny (maskAny ipNotFoundError))) /\
  IsIPNotFound (maskAny (maskAny ipNotFoundError)) = true /\
  IsUnitNotFound (maskAny (maskAny ipNotFoundError)) = false.
Proof.
  intros HU Hfu HUS Hst Hinv Hin Hname Hnone.
  rewrite (run_GetStatus_found h f name w0 HU Hfu HUS).
  destruct (@run_aggregate_stable W h f Inv machineStates
              (findUnitStates name fleetUnitStates)
              {| Current := Unit_CurrentState fu;
                 Desired := Unit_DesiredState fu;
                 Machine := [] |} w2 Hst Hinv) as [Hrun _].
  rewrite Hrun. split; [| split; reflexivity].
  apply aggregate_once_unresolved.
  destruct (forallb (resolvable machineStates) (findUnitStates name fleetUnitStates))
    eqn:E; [| reflexivity].
  exfalso. rewrite forallb_forall in E.
  assert (Hs : In s (findUnitStates name fleetUnitStates))
    by (apply findUnitStates_In; auto).
  specialize (E s Hs). unfold resolvable in E.
  apply findMachine_None in Hnone. rewrite Hnone in E. discriminate.
Qed.

(** C4.  A unit that is there and has no record in the fetched UnitState
    collection has a status with an empty Machine sequence, returned
    without error and without a Machine fetch.  Conversely, whenever
    [GetStatus] returns without error a status with an empty Machine
    sequence, the fetched Unit collection holds the name and the fetched
    UnitState collection holds no record of it. *)
Theorem GetStatus_empty_Machine {W : Type} (h : Handler W) (f : fleet) name (w0 : W) :
  (forall fleetUnits fu fleetUnitStates w1 w2,
     h (Units (fleet_Client f)) w0 = ((fleetUnits, None), w1) ->
     findUnit name fleetUnits = Some fu ->
     h (UnitStates (fleet_Client f)) w1 = ((fleetUnitStates, None), w2) ->
     (forall s, In s fleetUnitStates -> UnitState_Name s <> name) ->
     run h (GetStatus f name) w0 =
       (({| Current := Unit_CurrentState fu;
            Desired := Unit_DesiredState fu;
            Machine := [] |}, None), w2) /\
     trace h (GetStatus f name) w0 =
       [Units (fleet_Client f); UnitStates (fleet_Client f)])
  /\
  (forall st w',
     run h (GetStatus f name) w0 = ((st, None), w') ->
     Machine st = [] ->
     exists fleetUnits fu fleetUnitStates w1 w2,
       h (Units (fleet_Client f)) w0 = ((fleetUnits, None), w1) /\
       findUnit name fleetUnits = Some fu /\
       In fu fleetUnits /\ Unit_Name fu = name /\
       h (UnitStates (fleet_Client f)) w1 = ((fleetUnitStates, None), w2) /\
       (forall s, In s fleetUnitStates -> UnitState_Name s <> name)).
Proof.
  split.
  - intros fleetUnits fu fleetUnitStates w1 w2 HU Hfu HUS Hnone.
    rewrite (run_GetStatus_found h f name w0 HU Hfu HUS).
    rewrite (trace_GetStatus_found h f name w0 HU Hfu HUS).
    rewrite (findUnitStates_none _ Hnone). split; reflexivity.
  - intros st w' Hrun Hempty.
    destruct (h (Units (fleet_Client f)) w0) as [[fleetUnits [e |]] w1] eqn:HU.
    { unfold GetStatus in Hrun. rewrite run_bind, run_call, HU in Hrun.
      discriminate. }
    destruct (findUnit name fleetUnits) as [fu |] eqn:Hfu.
    2:{ unfold GetStatus in Hrun. rewrite run_bind, run_call, HU in Hrun.
        cbn [fst snd] in Hrun. rewrite Hfu in Hrun. discriminate. }
    destruct (h (UnitStates (fleet_Client f)) w1)
      as [[fleetUnitStates [e |]] w2] eqn:HUS.
    { unfold GetStatus in Hrun. rewrite run_bind, run_call, HU in Hrun.
      cbn [fst snd] in Hrun. rewrite Hfu in Hrun.
      rewrite run_bind, run_call, HUS in Hrun. discriminate. }
    rewrite (run_GetStatus_found h f name w0 HU Hfu HUS) in Hrun.
    apply run_aggregate_ok in Hrun.
    destruct Hrun as [_ [_ [added [Hm [Hid _]]]]].
    simpl in Hm. rewrite Hempty in Hm. subst added. simpl in Hid.
    symmetry in Hid. apply map_eq_nil in Hid.
    destruct (findUnit_Some _ _ Hfu) as [Hin Hname].
    exists fleetUnits, fu, fleetUnitStates, w1, w2. repeat split; auto.
    intros s Hs Hn.
    assert (Hs' : In s (findUnitStates name fleetUnitStates))
      by (apply findUnitStates_In; auto).
    rewrite Hid in Hs'. exact Hs'.
Qed.

Lemma findUnit_at name pre fu post :
  (forall u, In u pre -> Unit_Name u <> name) ->
  Unit_Name fu = name ->
  findUnit name (pre ++ fu :: post) = Some fu.
Proof.
  intros Hpre Hname. unfold findUnit.
  induction pre as [| u pre IH]; simpl.
  - rewrite Hname, String.eqb_refl. reflexivity.
  - destruct (String.eqb_spec name (Unit_Name u)) as [Heq | Hne].
    + exfalso. apply (Hpre u); [left; reflexivity | auto].
    + apply IH. intros u' Hin. apply Hpre. right; exact Hin.
Qed.

Lemma records_of_findUnitStates name fleetUnitStates records :
  records_of name fleetUnitStates records ->
  findUnitStates name fleetUnitStates = records.
Proof.
  unfold findUnitStates.
  induction 1 as [| s l m Hname _ IH | s l m Hname _ IH]; simpl.
  - reflexivity.
  - rewrite Hname, String.eqb_refl, IH. reflexivity.
  - destruct (String.eqb_spec name (UnitState_Name s)) as [Heq | Hne];
      [congruence | exact IH].
Qed.

Lemma findUnitStates_records_of name fleetUnitStates :
  records_of name fleetUnitStates (findUnitStates name fleetUnitStates).
Proof.
  unfold findUnitStates.
  induction fleetUnitStates as [| s l IH]; simpl; [constructor |].
  destruct (String.eqb_spec name (UnitState_Name s)) as [Heq | Hne].
  - apply records_of_keep; auto.
  - apply records_of_skip; auto.
Qed.

Lemma findMachine_first_machine machineID machineStates ms :
  findMachine machineID machineStates = Some ms ->
  first_machine machineID machineStates ms.
Proof.
  unfold findMachine, first_machine.
  induction machineStates as [| m l IH]; simpl; [discriminate |].
  destruct (String.eqb_spec machineID (Machine_ID m)) as [Heq | Hne].
  - intros H; inversion H; subst ms. exists [], l.
    split; [reflexivity | split; [intros m' [] | auto]].
  - intros H. destruct (IH H) as [pre [post [Hl [Hpre Hid]]]].
    exists (m :: pre), post. split; [simpl; rewrite Hl; reflexivity |].
    split; [| exact Hid].
    intros m' [<- | Hin]; [congruence | auto].
Qed.

Lemma Forall2_map_self {A B : Type} (P : A -> B -> Prop) (g : A -> B) (l : list A) :
  (forall x, In x l -> P x (g x)) -> Forall2 P l (map g l).
Proof.
  induction l as [| x l IH]; intros H; simpl; constructor.
  - apply H. left; reflexivity.
  - apply IH. intros y Hy. apply H. right; exact Hy.
Qed.

(** C10.  The first unit of the name in the fetched Unit collection is
    [fu]; [records] are the fetched unit states of the name, in order;
    every Machine fetch answers the collection [machineStates], and every
    record has a machine in it.  Let the parser answer the nil IP to every
    text that is no address.  Then [GetStatus] returns without error, and
    its Machine sequence has, record for record and in order, the machine
    ID and the active state of the record and, as IP, what the parser makes
    of the public IP of the first machine with the ID of the record: the
    nil IP when that text is no address, which is no error. *)
Theorem GetStatus_ip_parsed {W : Type} (h : Handler W) (f : fleet) name
    (Inv : W -> Prop) (w0 w1 w2 : W) pre fu post fleetUnitStates records
    machineStates (is_address : string -> Prop) :
  h (Units (fleet_Client f)) w0 = ((pre ++ fu :: post, None), w1) ->
  (forall u, In u pre -> Unit_Name u <> name) ->
  Unit_Name fu = name ->
  h (UnitStates (fleet_Client f)) w1 = ((fleetUnitStates, None), w2) ->
  records_of name fleetUnitStates records ->
  Machines_stable h (fleet_Client f) Inv (machineStates, None) ->
  Inv w2 ->
  (forall s, In s records ->
     exists ms, In ms machineStates /\ Machine_ID ms = UnitState_MachineID s) ->
  (forall text, ~ is_address text -> ParseIP text = []) ->
  exists st,
    fst (run h (GetStatus f name) w0) = (st, None) /\
    Current st = Unit_CurrentState fu /\
    Desired st = Unit_DesiredState fu /\
    Forall2
      (fun s e =>
         ID e = UnitState_MachineID s /\
         SystemdActive e = UnitState_SystemdActiveState s /\
         exists ms,
           first_machine (UnitState_MachineID s) machineStates ms /\
           IP e = ParseIP (Machine_PublicIP ms) /\
           (~ is_address (Machine_PublicIP ms) -> IP e = []))
      records (Machine st).
Proof.
  intros HU Hpre Hname HUS Hrec Hst Hinv Hjoin Hparse.
  pose proof (@findUnit_at name pre fu post Hpre Hname) as Hfu.
  apply records_of_findUnitStates in Hrec.
  assert (Hres : forall s, In s records ->
            exists ms, findMachine (UnitState_MachineID s) machineStates = Some ms).
  { intros s Hs. destruct (Hjoin s Hs) as [ms [Hms Hid]].
    destruct (findMachine (UnitState_MachineID s) machineStates) as [m |] eqn:E;
      [eauto |].
    exfalso. exact (proj1 (findMachine_None _ _) E ms Hms Hid). }
  rewrite (run_GetStatus_found h f name w0 HU Hfu HUS), Hrec.
  destruct (@run_aggregate_stable W h f Inv machineStates records
              {| Current := Unit_CurrentState fu;
                 Desired := Unit_DesiredState fu;
                 Machine := [] |} w2 Hst Hinv) as [Hrun _].
  rewrite Hrun, aggregate_once_resolved.
  2:{ apply forallb_forall. intros s Hs. destruct (Hres s Hs) as [ms Hms].
      unfold resolvable. rewrite Hms. reflexivity. }
  eexists; split; [reflexivity |]. cbn [Current Desired Machine app].
  split; [reflexivity | split; [reflexivity |]].
  apply Forall2_map_self. intros s Hs. destruct (Hres s Hs) as [ms Hms].
  unfold entry, ipFromMachines; cbn [ID SystemdActive IP]. rewrite Hms; cbn [fst].
  split; [reflexivity | split; [reflexivity |]].
  exists ms. split; [apply findMachine_first_machine; exact Hms |].
  split; [reflexivity | apply Hparse].
Qed.

(** ** Endpoint resolution *)

(** C5.  With the scheme unix or file and a host in the endpoint,
    [NewFleet] is the program that returns at once no client and the masked
    [fmt.Errorf] error naming host and scheme: it issues no request at
    all, neither to build an API client nor to dial. *)
Theorem NewFleet_socket_with_host (config : Config) :
  Scheme (Endpoint config) = "unix" \/ Scheme (Endpoint config) = "file" ->
  Host (Endpoint config) <> "" ->
  let err :=
    maskAny (Errorf "unable to connect to host %q with scheme %q"
                    [Host (Endpoint config); Scheme (Endpoint config)]) in
  NewFleet config = Ret (None, Some err) /\
  IsConfigurationError err = true /\
  (forall (W : Type) (h : Handler W) (w : W),
     run h (NewFleet config) w = ((None, Some err), w) /\
     trace h (NewFleet config) w = []).
Proof.
  intros Hscheme Hhost err.
  assert (Hlen : (0 <? String.length (Host (Endpoint config)))%nat = true).
  { apply Nat.ltb_lt. destruct (Host (Endpoint config)); [congruence | simpl; lia]. }
  assert (E : NewFleet config = Ret (None, Some err)).
  { unfold NewFleet, err.
    destruct Hscheme as [Hs | Hs]; rewrite Hs; simpl; rewrite Hlen; reflexivity. }
  split; [exact E | split; [reflexivity |]].
  intros W h w. rewrite E. split; reflexivity.
Qed.

(** C6.  With the scheme unix or file and no host, [NewFleet] asks for an
    API client with the endpoint rewritten to scheme http, host
    domain-sock and an empty path, and with a transport whose dial function
    dials the original path of the endpoint on network unix whatever
    network and address it is called with.  That is its only request, and
    when it is answered without error [NewFleet] returns the client built
    on this configuration. *)
Theorem NewFleet_socket_dials_path (config : Config) {W : Type} (h : Handler W) (w w' : W)
    (api : API) :
  Scheme (Endpoint config) = "unix" \/ Scheme (Endpoint config) = "file" ->
  Host (Endpoint config) = "" ->
  let sockPath := Path (Endpoint config) in
  let trans := Transport (fun _ _ => {| network := "unix"; address := sockPath |}) in
  let client := {| Client_Transport := Some trans |} in
  let endpoint := {| Scheme := "http"; Host := "domain-sock"; Path := "" |} in
  h (NewHTTPClient client endpoint) w = ((api, None), w') ->
  run h (NewFleet config) w =
    ((Some {| fleet_Config := {| Client := client; Endpoint := endpoint |};
              fleet_Client := api |}, None), w') /\
  trace h (NewFleet config) w = [NewHTTPClient client endpoint] /\
  (forall (s t : string) (W2 : Type) (h2 : Handler W2) (w2 : W2),
     trace h2 (dial trans s t) w2 =
       [NetDial {| network := "unix"; address := sockPath |}]).
Proof.
  intros Hscheme Hhost sockPath trans client endpoint Hnew.
  assert (E : NewFleet config =
              NewFleet_bind {| Client := Client config; Endpoint := endpoint |} trans).
  { unfold NewFleet, trans, sockPath.
    destruct Hscheme as [Hs | Hs]; rewrite Hs; simpl; rewrite Hhost; reflexivity. }
  rewrite E. unfold NewFleet_bind; cbn [Client Endpoint].
  fold client. rewrite run_bind, trace_bind, run_call, Hnew; cbn [fst snd].
  split; [reflexivity | split].
  - unfold call; cbn [trace]. rewrite Hnew. reflexivity.
  - intros s t W2 h2 w2. unfold dial, trans, call; cbn [trace].
    destruct (h2 _ w2). reflexivity.
Qed.

(** The one way left for [NewFleet] to fail on such an endpoint: the error
    of the API client constructor, handed on masked. *)
Lemma NewFleet_client_error (config : Config) {W : Type} (h : Handler W)
    (w w' : W) (api : API) (err : error) :
  Scheme (Endpoint config) = "unix" \/ Scheme (Endpoint config) = "file" ->
  Host (Endpoint config) = "" ->
  h (NewHTTPClient
       {| Client_Transport :=
            Some (Transport (fun _ _ =>
                    {| network := "unix"; address := Path (Endpoint config) |})) |}
       {| Scheme := "http"; Host := "domain-sock"; Path := "" |}) w =
    ((api, Some err), w') ->
  run h (NewFleet config) w = ((None, Some (maskAny err)), w').
Proof.
  intros Hscheme Hhost Hnew. unfold NewFleet.
  destruct Hscheme as [Hs | Hs]; rewrite Hs; simpl; rewrite Hhost; simpl;
    rewrite Hnew; reflexivity.
Qed.

(** ** Lifecycle verbs *)

Lemma trace_Start {W : Type} (h : Handler W) (f : fleet) name (w : W) :
  trace h (Start f name) w =
  [SetUnitTargetState (fleet_Client f) name unitStateLaunched].
Proof.
  unfold Start, call; cbn [bind trace].
  destruct (h _ w) as [[err |] w1]; reflexivity.
Qed.

Lemma trace_Stop {W : Type} (h : Handler W) (f : fleet) name (w : W) :
  trace h (Stop f name) w =
  [SetUnitTargetState (fleet_Client f) name unitStateLoaded].
Proof.
  unfold Stop, call; cbn [bind trace].
  destruct (h _ w) as [[err |] w1]; reflexivity.
Qed.

Lemma has_unit_findUnit name units :
  has_unit name units = true -> exists u, findUnit name units = Some u.
Proof.
  unfold has_unit, findUnit. induction units as [| u us IH]; simpl; [discriminate |].
  destruct (name =? Unit_Name u); [eauto | exact IH].
Qed.

Lemma has_unit_write_desired name target units :
  has_unit name (map (write_desired name target) units) = has_unit name units.
Proof.
  unfold has_unit. induction units as [| u us IH]; simpl; [reflexivity |].
  rewrite IH. f_equal. unfold write_desired.
  destruct (name =? Unit_Name u) eqn:E; simpl; rewrite ?E; reflexivity.
Qed.

Lemma In_write_desired name target units u :
  In u (map (write_desired name target) units) ->
  Unit_Name u = name -> Unit_DesiredState u = target.
Proof.
  intros Hin Hname. apply in_map_iff in Hin as [u0 [Hu _]]. subst u.
  unfold write_desired in *.
  destruct (String.eqb_spec name (Unit_Name u0)); [reflexivity | congruence].
Qed.

(** A desired-state write that the service acknowledged. *)
Lemma remote_write_ok (sys : Sys) (c : API) name target (w w1 : Remote) :
  remote sys (SetUnitTargetState c name target) w = (None, w1) ->
  has_unit name (remote_units w1) = true /\
  (forall u, In u (remote_units w1) -> Unit_Name u = name ->
     Unit_DesiredState u = target).
Proof.
  cbn [remote]. destruct (faults w _); [discriminate |].
  destruct (has_unit name (remote_units w)) eqn:E; [| discriminate].
  intros H; inversion H; subst w1; clear H. cbn [with_units remote_units].
  split.
  - rewrite has_unit_write_desired. exact E.
  - intros u. apply In_write_desired.
Qed.

Lemma run_Start_ok {W : Type} (h : Handler W) (f : fleet) name (w w1 : W) :
  run h (Start f name) w = (None, w1) ->
  h (SetUnitTargetState (fleet_Client f) name unitStateLaunched) w = (None, w1).
Proof.
  unfold Start. rewrite run_bind, run_call.
  destruct (h _ w) as [[err |] w']; cbn [fst snd run]; intros H;
    [discriminate | exact H].
Qed.

Lemma run_Stop_ok {W : Type} (h : Handler W) (f : fleet) name (w w1 : W) :
  run h (Stop f name) w = (None, w1) ->
  h (SetUnitTargetState (fleet_Client f) name unitStateLoaded) w = (None, w1).
Proof.
  unfold Stop. rewrite run_bind, run_call.
  destruct (h _ w) as [[err |] w']; cbn [fst snd run]; intros H;
    [discriminate | exact H].
Qed.

Lemma remote_acknowledges_writes (sys : Sys) :
  acknowledges_writes (remote sys) desired_state.
Proof.
  intros c name target w w' H. apply remote_write_ok in H as [Hhas Hall].
  unfold desired_state.
  destruct (has_unit_findUnit _ _ Hhas) as [u Hu]. rewrite Hu; simpl.
  destruct (findUnit_Some _ _ Hu) as [Hin Hname].
  rewrite (Hall u Hin Hname). reflexivity.
Qed.

(** C7.  [Start] issues one desired-state write, of launched, and [Stop]
    one, of loaded.  On a service where an acknowledged desired-state write
    has taken effect, when [Start] and then [Stop] of a name both return
    without error, the desired state of the name is launched in between and
    loaded at the end, which is not inactive. *)
Theorem Start_then_Stop {W : Type} (h : Handler W)
    (desired : W -> string -> option string) (f : fleet) name (w w1 w2 : W) :
  acknowledges_writes h desired ->
  run h (Start f name) w = (None, w1) ->
  run h (Stop f name) w1 = (None, w2) ->
  trace h (Start f name) w =
    [SetUnitTargetState (fleet_Client f) name "launched"] /\
  trace h (Stop f name) w1 =
    [SetUnitTargetState (fleet_Client f) name "loaded"] /\
  desired w1 name = Some "launched" /\
  desired w2 name = Some "loaded" /\
  desired w2 name <> Some unitStateInactive.
Proof.
  intros Hack Hstart Hstop.
  apply run_Start_ok, Hack in Hstart.
  apply run_Stop_ok, Hack in Hstop.
  split; [apply trace_Start | split; [apply trace_Stop |]].
  split; [exact Hstart | split; [exact Hstop |]].
  rewrite Hstop. discriminate.
Qed.

(** C9.  When the parser rejects the content, [Submit] is the program that
    returns at once the parser's error, masked: against any handler it
    issues no request and leaves the world as it was. *)
Theorem Submit_parse_error (f : fleet) (name content : string)
    (unitFile : UnitFile) (err : error) :
  NewUnitFile content = (unitFile, Some err) ->
  Submit f name content = Ret (Some (maskAny err)) /\
  Cause (maskAny err) = Cause err /\
  (forall (W : Type) (h : Handler W) (w : W),
     run h (Submit f name content) w = (Some (maskAny err), w) /\
     trace h (Submit f name content) w = []).
Proof.
  intros Hparse.
  assert (E : Submit f name content = Ret (Some (maskAny err)))
    by (unfold Submit; rewrite Hparse; reflexivity).
  split; [exact E | split; [reflexivity |]].
  intros W h w. rewrite E. split; reflexivity.
Qed.

(** The other way round: a request of [Submit] is the create-unit request
    for the parsed content, with the desired state loaded. *)
Lemma Submit_request_after_parse {W : Type} (h : Handler W) (f : fleet)
    (name content : string) (w : W) (r : Request) :
  In r (trace h (Submit f name content) w) ->
  exists unitFile,
    NewUnitFile content = (unitFile, None) /\
    r = CreateUnit (fleet_Client f)
          {| Unit_Name := name;
             Unit_Options := MapUnitFileToSchemaUnitOptions unitFile;
             Unit_DesiredState := "loaded";
             Unit_CurrentState := "" |}.
Proof.
  unfold Submit. destruct (NewUnitFile content) as [unitFile [err |]].
  - intros [].
  - unfold call; cbn [bind trace]. destruct (h _ w) as [[e |] w1];
      (intros [<- | []]; eauto).
Qed.

(** ** The fetch-once variant *)

Lemma observably_equal_refl r : observably_equal r r.
Proof. reflexivity. Qed.

(** C8, as amended.  Let every Machine fetch of the run have the same
    answer.  If that answer is not an error, or if the UnitState fetch
    brings at least one record of the name, then [GetStatus] and the
    variant that fetches the Machine collection once return the same
    status, or errors of the same cause. *)
Theorem GetStatus_fetch_once_equiv {W : Type} (h : Handler W) (f : fleet) name
    (Inv : W -> Prop) (M : list schema_Machine * option error) (w0 : W) :
  Inv w0 ->
  (forall w, Inv w ->
     Inv (snd (h (Units (fleet_Client f)) w)) /\
     Inv (snd (h (UnitStates (fleet_Client f)) w))) ->
  Machines_stable h (fleet_Client f) Inv M ->
  (snd M = None \/
   forall w, Inv w ->
     findUnitStates name (fst (fst (h (UnitStates (fleet_Client f)) w))) <> []) ->
  observably_equal (fst (run h (GetStatus f name) w0))
                   (fst (run h (GetStatus_fetch_once f name) w0)).
Proof.
  intros Hw0 Hreads Hst Hcase.
  unfold GetStatus, GetStatus_fetch_once.
  rewrite !run_bind, !run_call.
  destruct (Hreads w0 Hw0) as [Hw1 _].
  destruct (h (Units (fleet_Client f)) w0) as [[fleetUnits [e |]] w1];
    cbn [fst snd] in *; [apply observably_equal_refl |].
  destruct (findUnit name fleetUnits) as [fu |]; [| apply observably_equal_refl].
  rewrite !run_bind, !run_call.
  destruct (Hreads w1 Hw1) as [_ Hw2].
  assert (Hmatch : snd M = None \/
            findUnitStates name (fst (fst (h (UnitStates (fleet_Client f)) w1))) <> [])
    by (destruct Hcase as [Hok | Hne]; [left; exact Hok | right; exact (Hne w1 Hw1)]).
  destruct (h (UnitStates (fleet_Client f)) w1) as [[fleetUnitStates [e |]] w2];
    cbn [fst snd] in *; [apply observably_equal_refl |].
  rewrite run_bind, run_call.
  destruct (Hst w2 Hw2) as [Hans _].
  destruct M as [machineStates [err |]].
  - destruct Hmatch as [Hok | Hne]; [discriminate |].
    rewrite (@run_aggregate_failed W h f Inv machineStates err
               (findUnitStates name fleetUnitStates) _ w2 Hst Hw2 Hne).
    destruct (h (Machines (fleet_Client f)) w2) as [ans w3].
    cbn [fst snd] in *; subst ans. reflexivity.
  - destruct (@run_aggregate_stable W h f Inv machineStates
                (findUnitStates name fleetUnitStates)
                {| Current := Unit_CurrentState fu;
                   Desired := Unit_DesiredState fu;
                   Machine := [] |} w2 Hst Hw2) as [Hrun _].
    rewrite Hrun.
    destruct (h (Machines (fleet_Client f)) w2) as [ans w3].
    cbn [fst snd] in *; subst ans. reflexivity.
Qed.

End Proofs.

(** * The laboratory cluster as an instance *)

(** web.service runs on m2 and on m1; its unit states come in that order,
    with the state of db.service in between. *)
Lemma GetStatus_two_machines_witness :
  exists st,
    run (remote lab_sys) (GetStatus lab_fleet "web.service") lab_cluster =
      ((st, None), lab_cluster) /\
    Current st = Unit_CurrentState lab_web /\
    Desired st = Unit_DesiredState lab_web /\
    Machine st =
      [{| ID := UnitState_MachineID lab_web_on_m2;
          IP := lab_ParseIP (Machine_PublicIP lab_m2);
          SystemdActive := UnitState_SystemdActiveState lab_web_on_m2 |};
       {| ID := UnitState_MachineID lab_web_on_m1;
          IP := lab_ParseIP (Machine_PublicIP lab_m1);
          SystemdActive := UnitState_SystemdActiveState lab_web_on_m1 |}] /\
    List.length (Machine st) = 2 /\
    In lab_web lab_units /\ Unit_Name lab_web = "web.service" /\
    In lab_m2 lab_machines /\ Machine_ID lab_m2 = UnitState_MachineID lab_web_on_m2 /\
    In lab_m1 lab_machines /\ Machine_ID lab_m1 = UnitState_MachineID lab_web_on_m1.
Proof.
  apply (@GetStatus_two_machines lab Remote (remote lab_sys) lab_fleet "web.service"
           lab_cluster lab_cluster lab_cluster lab_cluster lab_cluster
           lab_units lab_web [] [lab_db_on_m3] [] lab_web_on_m2 lab_web_on_m1
           lab_machines lab_machines lab_m2 lab_m1);
    try reflexivity.
  intros s [<- | []]. discriminate.
Defined.

(** No unit of the laboratory is called mail.service. *)
Lemma GetStatus_unit_absent_witness :
  run (remote lab_sys) (GetStatus lab_fleet "mail.service") lab_cluster =
    ((UnitStatus_zero, Some (maskAny unitNotFoundError)), lab_cluster) /\
  IsUnitNotFound (maskAny unitNotFoundError) = true /\
  trace (remote lab_sys) (GetStatus lab_fleet "mail.service") lab_cluster =
    [Units (fleet_Client lab_fleet)].
Proof.
  apply (@GetStatus_unit_absent lab Remote (remote lab_sys) lab_fleet "mail.service"
           lab_cluster lab_cluster lab_units);
    [reflexivity |].
  intros u [<- | [<- | [<- | []]]]; discriminate.
Defined.

(** Before m1 has joined: web.service on m2 resolves, web.service on m1
    does not. *)
Lemma GetStatus_ip_not_found_witness :
  fst (run (remote lab_sys) (GetStatus lab_fleet "web.service") lab_cluster_without_m1) =
    (UnitStatus_zero, Some (maskAny (maskAny ipNotFoundError))) /\
  IsIPNotFound (maskAny (maskAny ipNotFoundError)) = true /\
  IsUnitNotFound (maskAny (maskAny ipNotFoundError)) = false.
Proof.
  apply (@GetStatus_ip_not_found lab Remote (remote lab_sys) lab_fleet "web.service"
           (eq lab_cluster_without_m1)
           lab_cluster_without_m1 lab_cluster_without_m1 lab_cluster_without_m1
           lab_units lab_web lab_unit_states [lab_m2; lab_m3] lab_web_on_m1);
    try reflexivity.
  - intros w <-; split; reflexivity.
  - simpl; auto.
  - intros ms [<- | [<- | []]]; discriminate.
Defined.

(** cron.service is there and has no unit state. *)
Lemma GetStatus_empty_Machine_witness :
  (run (remote lab_sys) (GetStatus lab_fleet "cron.service") lab_cluster =
     (({| Current := "inactive"; Desired := "launched"; Machine := [] |}, None),
      lab_cluster) /\
   trace (remote lab_sys) (GetStatus lab_fleet "cron.service") lab_cluster =
     [Units (fleet_Client lab_fleet); UnitStates (fleet_Client lab_fleet)])
  /\
  (exists fleetUnits fu fleetUnitStates w1 w2,
     remote lab_sys (Units (fleet_Client lab_fleet)) lab_cluster =
       ((fleetUnits, None), w1) /\
     findUnit "cron.service" fleetUnits = Some fu /\
     In fu fleetUnits /\ Unit_Name fu = "cron.service" /\
     remote lab_sys (UnitStates (fleet_Client lab_fleet)) w1 =
       ((fleetUnitStates, None), w2) /\
     (forall s, In s fleetUnitStates -> UnitState_Name s <> "cron.service")).
Proof.
  pose proof (@GetStatus_empty_Machine lab Remote (remote lab_sys) lab_fleet
                "cron.service" lab_cluster) as [Hthere Hback].
  split.
  - apply (Hthere lab_units lab_cron lab_unit_states lab_cluster lab_cluster);
      try reflexivity.
    intros s [<- | [<- | [<- | []]]]; discriminate.
  - apply (Hback {| Current := "inactive"; Desired := "launched"; Machine := [] |}
             lab_cluster); reflexivity.
Defined.

(** db.service runs on m3, whose public IP is no address, and on m2. *)
Lemma GetStatus_ip_parsed_witness :
  fst (run (remote lab_sys) (GetStatus lab_fleet "db.service") lab_cluster_db_spread) =
    ({| Current := "loaded";
        Desired := "loaded";
        Machine :=
          [{| ID := "m3"; IP := []; SystemdActive := "inactive" |};
           {| ID := "m2";
              IP := v4 Byte.x0a Byte.x00 Byte.x00 Byte.x02;
              SystemdActive := "active" |}] |}, None) /\
  exists st,
    fst (run (remote lab_sys) (GetStatus lab_fleet "db.service") lab_cluster_db_spread) =
      (st, None) /\
    Current st = Unit_CurrentState lab_db /\
    Desired st = Unit_DesiredState lab_db /\
    Forall2
      (fun s e =>
         ID e = UnitState_MachineID s /\
         SystemdActive e = UnitState_SystemdActiveState s /\
         exists ms,
           first_machine (UnitState_MachineID s) lab_machines ms /\
           IP e = lab_ParseIP (Machine_PublicIP ms) /\
           (~ lab_is_address (Machine_PublicIP ms) -> IP e = []))
      [lab_db_on_m3; lab_db_on_m2] (Machine st).
Proof.
  split; [reflexivity |].
  apply (@GetStatus_ip_parsed lab Remote (remote lab_sys) lab_fleet "db.service"
           (eq lab_cluster_db_spread)
           lab_cluster_db_spread lab_cluster_db_spread lab_cluster_db_spread
           [] lab_db [lab_web; lab_cron]
           [lab_db_on_m3; lab_web_on_m2; lab_db_on_m2] [lab_db_on_m3; lab_db_on_m2]
           lab_machines lab_is_address).
  - reflexivity.
  - intros u [].
  - reflexivity.
  - reflexivity.
  - apply records_of_keep; [reflexivity |].
    apply records_of_skip; [discriminate |].
    apply records_of_keep; [reflexivity |]. apply records_of_nil.
  - intros w <-; split; reflexivity.
  - reflexivity.
  - intros s [<- | [<- | []]].
    + exists lab_m3. split; [simpl; auto | reflexivity].
    + exists lab_m2. split; [simpl; auto | reflexivity].
  - intros text Hno. unfold ParseIP; cbn [lab]. unfold lab_ParseIP.
    destruct (String.eqb_spec text "10.0.0.1") as [E1 | _];
      [exfalso; apply Hno; left; exact E1 |].
    destruct (String.eqb_spec text "10.0.0.2") as [E2 | _];
      [exfalso; apply Hno; right; exact E2 | reflexivity].
Defined.

(** The endpoint with the missing slash is refused. *)
Lemma NewFleet_socket_with_host_witness :
  let err :=
    maskAny (Errorf "unable to connect to host %q with scheme %q" ["var"; "unix"]) in
  @NewFleet lab missing_slash_config = Ret (None, Some err) /\
  IsConfigurationError err = true /\
  (forall (W : Type) (h : @Handler lab W) (w : W),
     run h (NewFleet missing_slash_config) w = ((None, Some err), w) /\
     trace h (NewFleet missing_slash_config) w = []).
Proof.
  apply (@NewFleet_socket_with_host lab missing_slash_config).
  - left; reflexivity.
  - discriminate.
Defined.

(** The default endpoint, file:///var/run/fleet.sock. *)
Lemma NewFleet_socket_dials_path_witness :
  let sockPath := "/var/run/fleet.sock" in
  let trans := Transport (fun _ _ => {| network := "unix"; address := sockPath |}) in
  let client := {| Client_Transport := Some trans |} in
  let endpoint := {| Scheme := "http"; Host := "domain-sock"; Path := "" |} in
  run (remote lab_sys) (NewFleet DefaultConfig) lab_cluster =
    ((Some {| fleet_Config := {| Client := client; Endpoint := endpoint |};
              fleet_Client := 7 : @API lab |}, None), lab_cluster) /\
  trace (remote lab_sys) (NewFleet DefaultConfig) lab_cluster =
    [NewHTTPClient client endpoint] /\
  (forall (s t : string) (W2 : Type) (h2 : @Handler lab W2) (w2 : W2),
     trace h2 (dial trans s t) w2 =
       [NetDial {| network := "unix"; address := sockPath |}]).
Proof.
  apply (@NewFleet_socket_dials_path lab DefaultConfig Remote (remote lab_sys)
           lab_cluster lab_cluster (7 : @API lab)).
  - right; reflexivity.
  - reflexivity.
  - reflexivity.
Defined.

(** db.service is started and stopped on the service of the
    specification. *)
Lemma Start_then_Stop_witness :
  let w1 := snd (run (remote lab_sys) (Start lab_fleet "db.service") lab_cluster) in
  let w2 := snd (run (remote lab_sys) (Stop lab_fleet "db.service") w1) in
  trace (remote lab_sys) (Start lab_fleet "db.service") lab_cluster =
    [SetUnitTargetState (fleet_Client lab_fleet) "db.service" "launched"] /\
  trace (remote lab_sys) (Stop lab_fleet "db.service") w1 =
    [SetUnitTargetState (fleet_Client lab_fleet) "db.service" "loaded"] /\
  desired_state w1 "db.service" = Some "launched" /\
  desired_state w2 "db.service" = Some "loaded" /\
  desired_state w2 "db.service" <> Some unitStateInactive.
Proof.
  intros w1 w2.
  apply (@Start_then_Stop lab Remote (remote lab_sys) desired_state lab_fleet
           "db.service" lab_cluster w1 w2).
  - apply remote_acknowledges_writes.
  - reflexivity.
  - reflexivity.
Defined.

(** A text that opens no section is no unit file. *)
Lemma Submit_parse_error_witness :
  let err := Foreign "unable to parse unit file" in
  @Submit lab lab_fleet "db.service" "ExecStart=/bin/db" = Ret (Some (maskAny err)) /\
  Cause (maskAny err) = Cause err /\
  (forall (W : Type) (h : @Handler lab W) (w : W),
     run h (Submit lab_fleet "db.service" "ExecStart=/bin/db") w =
       (Some (maskAny err), w) /\
     trace h (Submit lab_fleet "db.service" "ExecStart=/bin/db") w = []).
Proof.
  apply (@Submit_parse_error lab lab_fleet "db.service" "ExecStart=/bin/db"
           ("" : @UnitFile lab)).
  reflexivity.
Defined.

(** The Machine fetch times out, and web.service has unit states: both
    designs fail on the fetch. *)
Lemma GetStatus_fetch_once_equiv_witness :
  observably_equal
    (fst (run (remote lab_sys) (GetStatus lab_fleet "web.service")
            lab_cluster_machines_down))
    (fst (run (remote lab_sys) (GetStatus_fetch_once lab_fleet "web.service")
            lab_cluster_machines_down)).
Proof.
  apply (@GetStatus_fetch_once_equiv lab Remote (remote lab_sys) lab_fleet "web.service"
           (eq lab_cluster_machines_down) ([], Some (Foreign "timeout"))).
  - reflexivity.
  - intros w <-; split; reflexivity.
  - intros w <-; split; reflexivity.
  - right. intros w <-. simpl. discriminate.
Defined.

(** C8, as stated, fails.  The Machine fetch times out, each time alike,
    and cron.service has no unit state: [GetStatus] never fetches the
    Machine collection and returns the status of the unit, while the
    variant that fetches once returns the error of the fetch. *)
Lemma GetStatus_fetch_once_differs :
  Machines_stable (remote lab_sys) (fleet_Client lab_fleet)
    (eq lab_cluster_machines_down) ([], Some (Foreign "timeout")) /\
  fst (run (remote lab_sys) (GetStatus lab_fleet "cron.service")
         lab_cluster_machines_down) =
    ({| Current := "inactive"; Desired := "launched"; Machine := [] |}, None) /\
  fst (run (remote lab_sys) (GetStatus_fetch_once lab_fleet "cron.service")
         lab_cluster_machines_down) =
    (UnitStatus_zero, Some (maskAny (Foreign "timeout"))) /\
  ~ observably_equal
      (fst (run (remote lab_sys) (GetStatus lab_fleet "cron.service")
              lab_cluster_machines_down))
      (fst (run (remote lab_sys) (GetStatus_fetch_once lab_fleet "cron.service")
              lab_cluster_machines_down)).
Proof.
  split; [| split; [| split]].
  - intros w <-; split; reflexivity.
  - reflexivity.
  - reflexivity.
  - unfold observably_equal. simpl. discriminate.
Qed.

(** * More on the package *)

Section Resolution.

Context {deps : Deps}.

(** ** [NewFleet] on the other endpoints *)

Lemma trace_call_bind {W A : Type} (h : Handler W) (r : Request)
    (k : Response r -> Prog A) (w : W) :
  trace h (bind (call r) k) w = r :: trace h (k (fst (h r w))) (snd (h r w)).
Proof. unfold call; cbn [bind trace]. destruct (h r w); reflexivity. Qed.

(** X1.  With the scheme http or https, whatever host and path, [NewFleet]
    asks for an API client with the endpoint as it was given and the
    standard transport; that is its only request, and when it is answered
    without error the client returned is built on that endpoint. *)
Theorem NewFleet_network (config : Config) {W : Type} (h : Handler W) (w w' : W)
    (api : API) :
  Scheme (Endpoint config) = "http" \/ Scheme (Endpoint config) = "https" ->
  let client := {| Client_Transport := Some DefaultTransport |} in
  h (NewHTTPClient client (Endpoint config)) w = ((api, None), w') ->
  run h (NewFleet config) w =
    ((Some {| fleet_Config := {| Client := client; Endpoint := Endpoint config |};
              fleet_Client := api |}, None), w') /\
  trace h (NewFleet config) w = [NewHTTPClient client (Endpoint config)].
Proof.
  intros Hscheme client Hnew.
  assert (E : NewFleet config = NewFleet_bind config DefaultTransport).
  { unfold NewFleet. destruct Hscheme as [Hs | Hs]; rewrite Hs; reflexivity. }
  rewrite E. unfold NewFleet_bind; cbn [Client Endpoint]. fold client.
  rewrite run_bind, trace_bind, run_call, Hnew; cbn [fst snd].
  split; [reflexivity |].
  unfold call; cbn [trace]. rewrite Hnew. reflexivity.
Qed.

(** X2.  With a scheme that is none of unix, file, http and https,
    [NewFleet] returns at once no client and the masked error that names
    the scheme; it issues no request. *)
Theorem NewFleet_invalid_scheme (config : Config) :
  Scheme (Endpoint config) <> "unix" ->
  Scheme (Endpoint config) <> "file" ->
  Scheme (Endpoint config) <> "http" ->
  Scheme (Endpoint config) <> "https" ->
  let err :=
    maskAny (Errorf "invalid scheme in fleet endpoint: %s"
                    [Scheme (Endpoint config)]) in
  NewFleet config = Ret (None, Some err) /\
  IsConfigurationError err = true /\
  (forall (W : Type) (h : Handler W) (w : W),
     run h (NewFleet config) w = ((None, Some err), w) /\
     trace h (NewFleet config) w = []).
Proof.
  intros H1 H2 H3 H4 err.
  apply String.eqb_neq in H1, H2, H3, H4.
  assert (E : NewFleet config = Ret (None, Some err)).
  { unfold NewFleet. rewrite H1, H2, H3, H4. reflexivity. }
  split; [exact E | split; [reflexivity |]].
  intros W h w. rewrite E. split; reflexivity.
Qed.

Lemma NewFleet_bind_shape (config : Config) (trans : RoundTripper)
    {W : Type} (h : Handler W) (w : W) :
  (exists c ep, trace h (NewFleet_bind config trans) w = [NewHTTPClient c ep]) /\
  ((exists fl, fst (run h (NewFleet_bind config trans) w) = (Some fl, None)) \/
   (exists e, fst (run h (NewFleet_bind config trans) w) = (None, Some e))).
Proof.
  unfold NewFleet_bind, call; cbn [bind trace run].
  destruct (h _ w) as [[api [e |]] w1]; cbn [trace run fst]; split; eauto.
Qed.

(** X3.  Whatever the configuration and the handler: [NewFleet] never
    dials; it issues no request and returns a configuration error when the
    endpoint is not one it goes on with, and exactly one request, for an
    API client, when it is; and it returns either a client or an error,
    never both and never neither. *)
Theorem NewFleet_requests (config : Config) {W : Type} (h : Handler W) (w : W) :
  Forall (fun r => is_NetDial r = false) (trace h (NewFleet config) w) /\
  (if endpoint_ok (Endpoint config)
   then exists c ep, trace h (NewFleet config) w = [NewHTTPClient c ep]
   else trace h (NewFleet config) w = [] /\
        exists e, fst (run h (NewFleet config) w) = (None, Some e) /\
                  IsConfigurationError e = true) /\
  ((exists fl, fst (run h (NewFleet config) w) = (Some fl, None)) \/
   (exists e, fst (run h (NewFleet config) w) = (None, Some e))).
Proof.
  unfold NewFleet, endpoint_ok.
  destruct ((Scheme (Endpoint config) =? "unix") || (Scheme (Endpoint config) =? "file"))
    eqn:Esock; cbn [andb orb].
  - destruct (Host (Endpoint config)) as [| a host] eqn:Ehost;
      cbn [String.length Nat.ltb Nat.leb String.eqb orb].
    + match goal with
      | |- context [NewFleet_bind ?c ?t] =>
          destruct (NewFleet_bind_shape c t h w) as [[c0 [ep0 Ht]] Hr]
      end.
      rewrite Ht. split; [repeat constructor | split; [eauto | exact Hr]].
    + destruct ((Scheme (Endpoint config) =? "http")
                || (Scheme (Endpoint config) =? "https")) eqn:Enet.
      * exfalso. apply orb_true_iff in Esock, Enet.
        rewrite !String.eqb_eq in Esock, Enet.
        destruct Esock as [E1 | E1], Enet as [E2 | E2]; rewrite E1 in E2;
          discriminate.
      * cbn [trace run fst]. split; [constructor | split; [| eauto]].
        split; [reflexivity | eexists; split; reflexivity].
  - destruct ((Scheme (Endpoint config) =? "http")
              || (Scheme (Endpoint config) =? "https")) eqn:Enet.
    + destruct (NewFleet_bind_shape config DefaultTransport h w)
        as [[c0 [ep0 Ht]] Hr].
      rewrite Ht. split; [repeat constructor | split; [eauto | exact Hr]].
    + cbn [trace run fst]. split; [constructor | split; [| eauto]].
      split; [reflexivity | eexists; split; reflexivity].
Qed.

(** X4.  The configuration kept in a client built for a socket does not
    lead back to the socket: [NewFleet] on it asks for an API client with
    the standard transport, towards the host domain-sock. *)
Theorem NewFleet_again (config : Config) {W : Type} (h : Handler W) (w w' : W)
    (fl : fleet) :
  Scheme (Endpoint config) = "unix" \/ Scheme (Endpoint config) = "file" ->
  Host (Endpoint config) = "" ->
  run h (NewFleet config) w = ((Some fl, None), w') ->
  Endpoint (fleet_Config fl) =
    {| Scheme := "http"; Host := "domain-sock"; Path := "" |} /\
  (forall (W2 : Type) (h2 : Handler W2) (w2 : W2),
     trace h2 (NewFleet (fleet_Config fl)) w2 =
       [NewHTTPClient {| Client_Transport := Some DefaultTransport |}
          {| Scheme := "http"; Host := "domain-sock"; Path := "" |}]).
Proof.
  intros Hscheme Hhost Hrun.
  assert (Hcfg : Endpoint (fleet_Config fl) =
                 {| Scheme := "http"; Host := "domain-sock"; Path := "" |}).
  { unfold NewFleet in Hrun.
    destruct Hscheme as [Hs | Hs]; rewrite Hs in Hrun; simpl in Hrun;
      rewrite Hhost in Hrun; simpl in Hrun;
      destruct (h _ w) as [[api [e |]] w1]; simpl in Hrun;
      inversion Hrun; reflexivity. }
  split; [exact Hcfg |].
  intros W2 h2 w2. unfold NewFleet. rewrite Hcfg; simpl. rewrite ?Hcfg.
  destruct (h2 _ w2) as [[api [e |]] w3]; reflexivity.
Qed.

(** X18.  [NewFleet] does not look at the transport of the client it is
    given: it sets the transport it has chosen for the endpoint in its
    place, so that two configurations with the same endpoint give the same
    program, and the client handed to the constructor of the API client
    never carries the transport of the caller. *)
Theorem NewFleet_overwrites_transport (config : Config)
    (transport : option RoundTripper) :
  NewFleet {| Client := {| Client_Transport := transport |};
              Endpoint := Endpoint config |} = NewFleet config /\
  (forall (W : Type) (h : Handler W) (w : W) c ep,
     In (NewHTTPClient c ep) (trace h (NewFleet config) w) ->
     Client_Transport c = Some DefaultTransport \/
     Client_Transport c =
       Some (Transport (fun _ _ =>
               {| network := "unix"; address := Path (Endpoint config) |}))).
Proof.
  split.
  - unfold NewFleet; cbn [Client Endpoint].
    destruct ((Scheme (Endpoint config) =? "unix")
              || (Scheme (Endpoint config) =? "file")).
    + destruct (0 <? String.length (Host (Endpoint config)))%nat; reflexivity.
    + destruct ((Scheme (Endpoint config) =? "http")
                || (Scheme (Endpoint config) =? "https")); reflexivity.
  - intros W h w c ep. unfold NewFleet.
    destruct ((Scheme (Endpoint config) =? "unix")
              || (Scheme (Endpoint config) =? "file")).
    + destruct (0 <? String.length (Host (Endpoint config)))%nat;
        [intros [] |].
      unfold NewFleet_bind; rewrite trace_call_bind; cbn [Client Endpoint].
      intros [H | H].
      * inversion H. right; reflexivity.
      * destruct (h _ w) as [[api [e |]] w1]; destruct H.
    + destruct ((Scheme (Endpoint config) =? "http")
                || (Scheme (Endpoint config) =? "https")); [| intros []].
      unfold NewFleet_bind; rewrite trace_call_bind; cbn [Client Endpoint].
      intros [H | H].
      * inversion H. left; reflexivity.
      * destruct (h _ w) as [[api [e |]] w1]; destruct H.
Qed.

End Resolution.

Section Verbs.

Context {deps : Deps}.

(** ** The lifecycle verbs *)

(** X5.  When the parser accepts the content, [Submit] issues one request:
    the creation of a unit of the given name, with the options mapped from
    the parsed file and the desired state loaded.  It returns nil when the
    request is answered without error, and the error of the answer, masked,
    otherwise. *)
Theorem Submit_accepted {W : Type} (h : Handler W) (f : fleet)
    (name content : string) (unitFile : UnitFile) (w : W) :
  NewUnitFile content = (unitFile, None) ->
  let unit :=
    {| Unit_Name := name;
       Unit_Options := MapUnitFileToSchemaUnitOptions unitFile;
       Unit_DesiredState := "loaded";
       Unit_CurrentState := "" |} in
  trace h (Submit f name content) w = [CreateUnit (fleet_Client f) unit] /\
  run h (Submit f name content) w =
    (option_map maskAny (fst (h (CreateUnit (fleet_Client f) unit) w)),
     snd (h (CreateUnit (fleet_Client f) unit) w)).
Proof.
  intros Hparse unit. unfold Submit. rewrite Hparse. fold unit.
  unfold call; cbn [bind trace run].
  destruct (h (CreateUnit (fleet_Client f) unit) w) as [[e |] w1]; split; reflexivity.
Qed.

Lemma trace_Destroy {W : Type} (h : Handler W) (f : fleet) name (w : W) :
  trace h (Destroy f name) w = [DestroyUnit (fleet_Client f) name].
Proof.
  unfold Destroy, call; cbn [bind trace].
  destruct (h _ w) as [[err |] w1]; reflexivity.
Qed.

Lemma trace_Submit {W : Type} (h : Handler W) (f : fleet) (name content : string)
    (w : W) :
  Forall (fun r => asks_inactive r = false) (trace h (Submit f name content) w).
Proof.
  unfold Submit. destruct (NewUnitFile content) as [unitFile [err |]].
  - constructor.
  - unfold call; cbn [bind trace]. destruct (h _ w) as [[e |] w1];
      repeat constructor.
Qed.

Lemma is_fetch_not_inactive (r : Request) :
  is_fetch r = true -> asks_inactive r = false.
Proof. destruct r; simpl; intros H; try reflexivity; discriminate. Qed.

(** The requests of [GetStatus] are fetches, the first one of the Unit
    collection. *)
Lemma trace_GetStatus_fetches {W : Type} (h : Handler W) (f : fleet) name (w : W) :
  Forall (fun r => is_fetch r = true) (trace h (GetStatus f name) w) /\
  exists rest, trace h (GetStatus f name) w = Units (fleet_Client f) :: rest.
Proof.
  unfold GetStatus. rewrite trace_call_bind.
  split; [| eauto]. constructor; [reflexivity |].
  destruct (h (Units (fleet_Client f)) w) as [[fleetUnits [e |]] w1];
    cbn [fst snd]; [constructor |].
  destruct (findUnit name fleetUnits) as [fu |]; [| constructor].
  rewrite trace_call_bind. constructor; [reflexivity |].
  destruct (h (UnitStates (fleet_Client f)) w1) as [[fleetUnitStates [e |]] w2];
    cbn [fst snd]; [constructor |].
  eapply Forall_impl; [| apply trace_aggregate].
  intros r ->. reflexivity.
Qed.

(** X6.  No verb of the package ever asks for the desired state inactive:
    whatever the handler, no request of [Submit], [Start], [Stop],
    [Destroy] or [GetStatus] creates a unit with that desired state or
    writes it; [Destroy] issues one request, the deletion of the unit. *)
Theorem never_asks_inactive {W : Type} (h : Handler W) (f : fleet)
    (name content : string) (w : W) :
  Forall (fun r => asks_inactive r = false) (trace h (Submit f name content) w) /\
  Forall (fun r => asks_inactive r = false) (trace h (Start f name) w) /\
  Forall (fun r => asks_inactive r = false) (trace h (Stop f name) w) /\
  Forall (fun r => asks_inactive r = false) (trace h (Destroy f name) w) /\
  Forall (fun r => asks_inactive r = false) (trace h (GetStatus f name) w) /\
  trace h (Destroy f name) w = [DestroyUnit (fleet_Client f) name].
Proof.
  split; [apply trace_Submit |].
  rewrite trace_Start, trace_Stop, trace_Destroy.
  repeat split; try (repeat constructor).
  eapply Forall_impl; [| apply (trace_GetStatus_fetches h f name w)].
  intros r. apply is_fetch_not_inactive.
Qed.

(** X7.  An error that [Start], [Stop] or [Destroy] returns is the error
    the service answered to its one request, masked once: it has the cause
    of that error, hence its classification. *)
Theorem verb_error_cause {W : Type} (h : Handler W) (f : fleet) name
    (w w' : W) (err : error) :
  (run h (Start f name) w = (Some err, w') ->
   exists e0,
     h (SetUnitTargetState (fleet_Client f) name "launched") w = (Some e0, w') /\
     err = maskAny e0 /\ Cause err = Cause e0 /\
     IsUnitNotFound err = IsUnitNotFound e0) /\
  (run h (Stop f name) w = (Some err, w') ->
   exists e0,
     h (SetUnitTargetState (fleet_Client f) name "loaded") w = (Some e0, w') /\
     err = maskAny e0 /\ Cause err = Cause e0 /\
     IsUnitNotFound err = IsUnitNotFound e0) /\
  (run h (Destroy f name) w = (Some err, w') ->
   exists e0,
     h (DestroyUnit (fleet_Client f) name) w = (Some e0, w') /\
     err = maskAny e0 /\ Cause err = Cause e0 /\
     IsUnitNotFound err = IsUnitNotFound e0).
Proof.
  unfold Start, Stop, Destroy, unitStateLaunched, unitStateLoaded.
  rewrite !run_bind, !run_call.
  repeat split;
    match goal with
    | |- context [h ?r w] => destruct (h r w) as [[e0 |] w1]
    end; cbn [fst snd run]; intros H; inversion H; subst;
    exists e0; repeat split; reflexivity.
Qed.

Lemma run_Destroy_ok {W : Type} (h : Handler W) (f : fleet) name (w w1 : W) :
  run h (Destroy f name) w = (None, w1) ->
  h (DestroyUnit (fleet_Client f) name) w = (None, w1).
Proof.
  unfold Destroy. rewrite run_bind, run_call.
  destruct (h _ w) as [[err |] w']; cbn [fst snd run]; intros H;
    [discriminate | exact H].
Qed.

Lemma remote_forgets_destroyed (sys : Sys) : forgets_destroyed (remote sys).
Proof.
  intros c c' name w w1 w2 fleetUnits Hd HU u Hin Hname.
  cbn [remote] in Hd, HU.
  destruct (faults w (DestroyUnit c name)); [discriminate |].
  destruct (has_unit name (remote_units w)); [| discriminate].
  inversion Hd; subst w1; clear Hd.
  cbn [with_units faults remote_units] in HU.
  destruct (faults w (Units c')); [discriminate |].
  inversion HU; subst fleetUnits; clear HU.
  apply filter_In in Hin as [_ Hneg].
  rewrite Hname, String.eqb_refl in Hneg. discriminate.
Qed.

(** X8.  On a service that forgets a unit whose deletion it acknowledged:
    after a [Destroy] of a name that returned without error, a [GetStatus]
    of the name whose Unit fetch is answered fails with the masked
    [unitNotFoundError], which [IsUnitNotFound] recognises. *)
Theorem Destroy_then_GetStatus {W : Type} (h : Handler W) (f : fleet) name
    (w w1 w2 : W) fleetUnits :
  forgets_destroyed h ->
  run h (Destroy f name) w = (None, w1) ->
  h (Units (fleet_Client f)) w1 = ((fleetUnits, None), w2) ->
  run h (GetStatus f name) w1 =
    ((UnitStatus_zero, Some (maskAny unitNotFoundError)), w2) /\
  IsUnitNotFound (maskAny unitNotFoundError) = true.
Proof.
  intros Hlaw Hd HU. apply run_Destroy_ok in Hd.
  assert (Habsent : findUnit name fleetUnits = None).
  { apply findUnit_None. exact (Hlaw _ _ _ _ _ _ _ Hd HU). }
  unfold GetStatus. rewrite run_bind, run_call, HU; cbn [fst snd].
  rewrite Habsent. split; reflexivity.
Qed.

End Verbs.

Section Aggregation.

Context {deps : Deps}.

(** ** More on [GetStatus] *)

Lemma trace_aggregate_repeat {W : Type} (h : Handler W) (f : fleet) ffus :
  forall ourUnitStatus (w : W),
  exists n,
    n <= List.length ffus /\
    trace h (aggregate f ffus ourUnitStatus) w = repeat (Machines (fleet_Client f)) n.
Proof.
  induction ffus as [| s rest IH]; intros st w; cbn [aggregate].
  - exists 0. split; [apply Nat.le_refl | reflexivity].
  - rewrite trace_bind, trace_ipFromUnitState.
    destruct (run h (ipFromUnitState f s) w) as [[ip [err |]] w1]; cbn [fst snd].
    + exists 1. split; [simpl; lia | reflexivity].
    + match goal with
      | |- context [trace h (aggregate f rest ?st') w1] =>
          destruct (IH st' w1) as [n [Hn Ht]]
      end.
      exists (S n). split; [simpl; lia |]. rewrite Ht. reflexivity.
Qed.

(** X9.  [GetStatus] only reads, in a fixed order: whatever the handler,
    its requests are the fetch of the Unit collection, alone or followed by
    the fetch of the UnitState collection and then by fetches of the
    Machine collection, at most one per fetched unit state of the name. *)
Theorem GetStatus_only_fetches {W : Type} (h : Handler W) (f : fleet) name (w : W) :
  Forall (fun r => is_fetch r = true) (trace h (GetStatus f name) w) /\
  (trace h (GetStatus f name) w = [Units (fleet_Client f)] \/
   exists n,
     n <= List.length
            (findUnitStates name
               (fst (fst (h (UnitStates (fleet_Client f))
                            (snd (h (Units (fleet_Client f)) w)))))) /\
     trace h (GetStatus f name) w =
       Units (fleet_Client f) :: UnitStates (fleet_Client f) ::
       repeat (Machines (fleet_Client f)) n).
Proof.
  split; [apply trace_GetStatus_fetches |].
  unfold GetStatus. rewrite trace_call_bind.
  destruct (h (Units (fleet_Client f)) w) as [[fleetUnits [e |]] w1];
    cbn [fst snd]; [left; reflexivity |].
  destruct (findUnit name fleetUnits) as [fu |]; [| left; reflexivity].
  right. rewrite trace_call_bind.
  destruct (h (UnitStates (fleet_Client f)) w1) as [[fleetUnitStates [e |]] w2];
    cbn [fst snd].
  - exists 0. split; [lia | reflexivity].
  - match goal with
    | |- context [trace h (aggregate f ?l ?st') w2] =>
        destruct (trace_aggregate_repeat h f l st' w2) as [n [Hn Ht]]
    end.
    exists n. split; [exact Hn |]. rewrite Ht. reflexivity.
Qed.

(** X10.  Whatever the handler and the reason of the failure, an error of
    [GetStatus] comes with the zero status: nothing of the unit or of the
    machines resolved before the failure is handed out. *)
Theorem GetStatus_error_zero_status {W : Type} (h : Handler W) (f : fleet) name
    (w : W) (err : error) :
  snd (fst (run h (GetStatus f name) w)) = Some err ->
  fst (fst (run h (GetStatus f name) w)) = UnitStatus_zero /\
  Machine (fst (fst (run h (GetStatus f name) w))) = [].
Proof.
  intros H. rewrite (run_GetStatus_error h f name w H). split; reflexivity.
Qed.

Lemma findUnit_first name fleetUnits fu :
  findUnit name fleetUnits = Some fu ->
  exists pre post,
    fleetUnits = pre ++ fu :: post /\
    forall u, In u pre -> Unit_Name u <> name.
Proof.
  unfold findUnit. induction fleetUnits as [| u us IH]; simpl; [discriminate |].
  destruct (String.eqb_spec name (Unit_Name u)) as [Heq | Hne].
  - intros H; inversion H; subst. exists [], us. split; [reflexivity |].
    intros u' [].
  - intros H. destruct (IH H) as [pre [post [Hus Hpre]]].
    exists (u :: pre), post. split; [simpl; rewrite Hus; reflexivity |].
    intros u' [<- | Hin]; [congruence | auto].
Qed.

(** Inverting a run of [GetStatus] that ended without error. *)
Lemma run_GetStatus_ok {W : Type} (h : Handler W) (f : fleet) name (w0 w' : W) st :
  run h (GetStatus f name) w0 = ((st, None), w') ->
  exists fleetUnits fu fleetUnitStates w1 w2,
    h (Units (fleet_Client f)) w0 = ((fleetUnits, None), w1) /\
    findUnit name fleetUnits = Some fu /\
    h (UnitStates (fleet_Client f)) w1 = ((fleetUnitStates, None), w2) /\
    run h (aggregate f (findUnitStates name fleetUnitStates)
             {| Current := Unit_CurrentState fu;
                Desired := Unit_DesiredState fu;
                Machine := [] |}) w2 = ((st, None), w').
Proof.
  intros Hrun.
  destruct (h (Units (fleet_Client f)) w0) as [[fleetUnits [e |]] w1] eqn:HU.
  { unfold GetStatus in Hrun. rewrite run_bind, run_call, HU in Hrun.
    discriminate. }
  destruct (findUnit name fleetUnits) as [fu |] eqn:Hfu.
  2:{ unfold GetStatus in Hrun. rewrite run_bind, run_call, HU in Hrun.
      cbn [fst snd] in Hrun. rewrite Hfu in Hrun. discriminate. }
  destruct (h (UnitStates (fleet_Client f)) w1)
    as [[fleetUnitStates [e |]] w2] eqn:HUS.
  { unfold GetStatus in Hrun. rewrite run_bind, run_call, HU in Hrun.
    cbn [fst snd] in Hrun. rewrite Hfu in Hrun.
    rewrite run_bind, run_call, HUS in Hrun. discriminate. }
  rewrite (run_GetStatus_found h f name w0 HU Hfu HUS) in Hrun.
  exists fleetUnits, fu, fleetUnitStates, w1, w2. auto.
Qed.

(** X11.  Whatever the handler, when [GetStatus] returns without error:
    the Unit and UnitState fetches were answered without error; Current and
    Desired are those of the first unit of the name in the fetched Unit
    collection, later units of the name being ignored; and the Machine
    sequence has one entry per fetched unit state of the name, in the order
    of the fetch, with the machine ID and the systemd active state of the
    record. *)
Theorem GetStatus_success_shape {W : Type} (h : Handler W) (f : fleet) name
    (w0 w' : W) st :
  run h (GetStatus f name) w0 = ((st, None), w') ->
  exists pre fu post fleetUnitStates records w1 w2,
    h (Units (fleet_Client f)) w0 = ((pre ++ fu :: post, None), w1) /\
    (forall u, In u pre -> Unit_Name u <> name) /\
    Unit_Name fu = name /\
    h (UnitStates (fleet_Client f)) w1 = ((fleetUnitStates, None), w2) /\
    records_of name fleetUnitStates records /\
    Current st = Unit_CurrentState fu /\
    Desired st = Unit_DesiredState fu /\
    map ID (Machine st) = map UnitState_MachineID records /\
    map SystemdActive (Machine st) = map UnitState_SystemdActiveState records /\
    List.length (Machine st) = List.length records.
Proof.
  intros Hrun.
  destruct (run_GetStatus_ok h f name w0 Hrun)
    as [fleetUnits [fu [fleetUnitStates [w1 [w2 [HU [Hfu [HUS Hagg]]]]]]]].
  destruct (findUnit_first _ _ Hfu) as [pre [post [Hus Hpre]]].
  destruct (findUnit_Some _ _ Hfu) as [_ Hname].
  apply run_aggregate_ok in Hagg.
  destruct Hagg as [Hc [Hd [added [Hm [Hid Hact]]]]]. simpl in Hc, Hd, Hm.
  subst fleetUnits. rewrite <- Hm in Hid, Hact.
  exists pre, fu, post, fleetUnitStates, (findUnitStates name fleetUnitStates), w1, w2.
  repeat split; auto.
  - apply findUnitStates_records_of.
  - rewrite <- (length_map ID), Hid, length_map. reflexivity.
Qed.

Lemma trace_aggregate_ok {W : Type} (h : Handler W) (f : fleet) ffus :
  forall ourUnitStatus (w w' : W) st,
  run h (aggregate f ffus ourUnitStatus) w = ((st, None), w') ->
  trace h (aggregate f ffus ourUnitStatus) w =
    repeat (Machines (fleet_Client f)) (List.length ffus).
Proof.
  induction ffus as [| s rest IH]; intros st0 w w' st H; cbn [aggregate] in *.
  - reflexivity.
  - rewrite run_bind in H. rewrite trace_bind, trace_ipFromUnitState.
    destruct (run h (ipFromUnitState f s) w) as [[ip [err |]] w1];
      cbn [fst snd] in *.
    + discriminate.
    + simpl. f_equal. exact (IH _ _ _ _ H).
Qed.

(** X12.  Whatever the handler, a [GetStatus] that returns without error
    has issued the fetch of the Unit collection, the fetch of the UnitState
    collection, and then one fetch of the Machine collection for each entry
    of the Machine sequence it returns, and nothing else. *)
Theorem GetStatus_fetch_count {W : Type} (h : Handler W) (f : fleet) name
    (w0 w' : W) st :
  run h (GetStatus f name) w0 = ((st, None), w') ->
  trace h (GetStatus f name) w0 =
    Units (fleet_Client f) :: UnitStates (fleet_Client f) ::
    repeat (Machines (fleet_Client f)) (List.length (Machine st)).
Proof.
  intros Hrun.
  destruct (run_GetStatus_ok h f name w0 Hrun)
    as [fleetUnits [fu [fleetUnitStates [w1 [w2 [HU [Hfu [HUS Hagg]]]]]]]].
  rewrite (trace_GetStatus_found h f name w0 HU Hfu HUS).
  rewrite (trace_aggregate_ok h f _ _ w2 Hagg).
  apply run_aggregate_ok in Hagg.
  destruct Hagg as [_ [_ [added [Hm [Hid _]]]]]. simpl in Hm. subst added.
  rewrite <- (length_map ID (Machine st)), Hid, length_map. reflexivity.
Qed.

(** X13.  When the fetch of the Unit collection fails, [GetStatus] returns
    the zero status and the error of the fetch, masked, whatever units came
    with the error; it makes no other request. *)
Theorem GetStatus_Units_fetch_fails {W : Type} (h : Handler W) (f : fleet) name
    (w0 w1 : W) fleetUnits (err : error) :
  h (Units (fleet_Client f)) w0 = ((fleetUnits, Some err), w1) ->
  run h (GetStatus f name) w0 = ((UnitStatus_zero, Some (maskAny err)), w1) /\
  Cause (maskAny err) = Cause err /\
  trace h (GetStatus f name) w0 = [Units (fleet_Client f)].
Proof.
  intros HU. unfold GetStatus.
  rewrite run_bind, trace_call_bind, run_call, HU. repeat split; reflexivity.
Qed.

(** X14.  When the unit is there and the fetch of the UnitState collection
    fails, [GetStatus] returns the zero status and the error of the fetch,
    masked; it does not fetch the Machine collection. *)
Theorem GetStatus_UnitStates_fetch_fails {W : Type} (h : Handler W) (f : fleet)
    name (w0 w1 w2 : W) fleetUnits fu fleetUnitStates (err : error) :
  h (Units (fleet_Client f)) w0 = ((fleetUnits, None), w1) ->
  findUnit name fleetUnits = Some fu ->
  h (UnitStates (fleet_Client f)) w1 = ((fleetUnitStates, Some err), w2) ->
  run h (GetStatus f name) w0 = ((UnitStatus_zero, Some (maskAny err)), w2) /\
  Cause (maskAny err) = Cause err /\
  trace h (GetStatus f name) w0 =
    [Units (fleet_Client f); UnitStates (fleet_Client f)].
Proof.
  intros HU Hfu HUS. unfold GetStatus.
  rewrite run_bind, trace_call_bind, run_call, HU; cbn [fst snd]. rewrite Hfu.
  rewrite run_bind, trace_call_bind, run_call, HUS. repeat split; reflexivity.
Qed.

(** X15.  When the unit is there, at least one fetched unit state has the
    name and the first fetch of the Machine collection fails, [GetStatus]
    returns the zero status and the error of that fetch, masked twice (by
    [ipFromUnitState] and by [GetStatus]) with its cause kept; the fetch
    is not tried again, neither for this record nor for the next. *)
Theorem GetStatus_Machines_fetch_fails {W : Type} (h : Handler W) (f : fleet)
    name (w0 w1 w2 w3 : W) fleetUnits fu fleetUnitStates s rest machineStates
    (err : error) :
  h (Units (fleet_Client f)) w0 = ((fleetUnits, None), w1) ->
  findUnit name fleetUnits = Some fu ->
  h (UnitStates (fleet_Client f)) w1 = ((fleetUnitStates, None), w2) ->
  findUnitStates name fleetUnitStates = s :: rest ->
  h (Machines (fleet_Client f)) w2 = ((machineStates, Some err), w3) ->
  run h (GetStatus f name) w0 =
    ((UnitStatus_zero, Some (maskAny (maskAny err))), w3) /\
  Cause (maskAny (maskAny err)) = Cause err /\
  trace h (GetStatus f name) w0 =
    [Units (fleet_Client f); UnitStates (fleet_Client f);
     Machines (fleet_Client f)].
Proof.
  intros HU Hfu HUS Hmatch HM.
  rewrite (run_GetStatus_found h f name w0 HU Hfu HUS).
  rewrite (trace_GetStatus_found h f name w0 HU Hfu HUS).
  rewrite Hmatch. cbn [aggregate].
  rewrite run_bind, trace_bind, trace_ipFromUnitState.
  rewrite (run_ipFromUnitState_failed h f s w2 HM).
  repeat split; reflexivity.
Qed.

End Aggregation.

Section Resolving.

Context {deps : Deps}.

(** ** Resolving machines *)

Lemma findMachine_first machineID pre ms post :
  (forall m, In m pre -> Machine_ID m <> machineID) ->
  Machine_ID ms = machineID ->
  findMachine machineID (pre ++ ms :: post) = Some ms.
Proof.
  intros Hpre Hid. unfold findMachine.
  induction pre as [| m pre IH]; simpl.
  - rewrite Hid, String.eqb_refl. reflexivity.
  - destruct (String.eqb_spec machineID (Machine_ID m)) as [Heq | Hne].
    + exfalso. apply (Hpre m); [left; reflexivity | auto].
    + apply IH. intros m' Hin. apply Hpre. right; exact Hin.
Qed.

(** X16.  [ipFromUnitState] makes one fetch of the Machine collection and
    takes the first machine with the machine ID of the record: the
    machines before it with other IDs are passed over, and what follows it
    in the collection, be it a machine with the same ID and another public
    IP, does not count. *)
Theorem ipFromUnitState_first_match {W : Type} (h : Handler W) (f : fleet)
    (unitState : schema_UnitState) (w w' : W) pre ms post :
  h (Machines (fleet_Client f)) w = ((pre ++ ms :: post, None), w') ->
  (forall m, In m pre -> Machine_ID m <> UnitState_MachineID unitState) ->
  Machine_ID ms = UnitState_MachineID unitState ->
  run h (ipFromUnitState f unitState) w = ((ParseIP (Machine_PublicIP ms), None), w') /\
  trace h (ipFromUnitState f unitState) w = [Machines (fleet_Client f)].
Proof.
  intros HM Hpre Hid. split; [| apply trace_ipFromUnitState].
  rewrite (run_ipFromUnitState h f unitState w HM).
  unfold ipFromMachines. rewrite (@findMachine_first (UnitState_MachineID unitState) pre ms post Hpre Hid).
  reflexivity.
Qed.

Lemma trace_aggregate_stops {W : Type} (h : Handler W) (f : fleet)
    (Inv : W -> Prop) machineStates good bad rest :
  Machines_stable h (fleet_Client f) Inv (machineStates, None) ->
  forallb (resolvable machineStates) good = true ->
  resolvable machineStates bad = false ->
  forall ourUnitStatus (w : W), Inv w ->
  trace h (aggregate f (good ++ bad :: rest) ourUnitStatus) w =
    repeat (Machines (fleet_Client f)) (List.length good + 1).
Proof.
  intros Hst Hgood Hbad.
  induction good as [| s good IH]; intros st w Hw; cbn [app aggregate];
    rewrite trace_bind, trace_ipFromUnitState;
    destruct (Hst w Hw) as [Hans Hnext];
    destruct (h (Machines (fleet_Client f)) w) as [ans w1] eqn:E;
    cbn [fst snd] in Hans, Hnext; subst ans.
  - rewrite (run_ipFromUnitState h f bad w E). unfold ipFromMachines.
    unfold resolvable in Hbad.
    destruct (findMachine (UnitState_MachineID bad) machineStates);
      [discriminate | reflexivity].
  - simpl in Hgood. apply andb_true_iff in Hgood as [Hs Hgood].
    rewrite (run_ipFromUnitState h f s w E). unfold ipFromMachines.
    unfold resolvable in Hs.
    destruct (findMachine (UnitState_MachineID s) machineStates);
      [| discriminate].
    cbn [fst snd]. rewrite (IH Hgood _ w1 Hnext). reflexivity.
Qed.

(** X17.  Let every Machine fetch answer the same collection.  When the
    fetched unit states of the name are records that resolve, then one that
    does not, then any others, [GetStatus] stops at the one that does not:
    it has made one Machine fetch for each record up to and including that
    one, none for the others, and returns the zero status with an error of
    cause [ipNotFoundError]. *)
Theorem GetStatus_stops_at_unresolved {W : Type} (h : Handler W) (f : fleet) name
    (Inv : W -> Prop) (w0 w1 w2 : W) fleetUnits fu fleetUnitStates machineStates
    good bad rest :
  h (Units (fleet_Client f)) w0 = ((fleetUnits, None), w1) ->
  findUnit name fleetUnits = Some fu ->
  h (UnitStates (fleet_Client f)) w1 = ((fleetUnitStates, None), w2) ->
  Machines_stable h (fleet_Client f) Inv (machineStates, None) ->
  Inv w2 ->
  findUnitStates name fleetUnitStates = good ++ bad :: rest ->
  forallb (resolvable machineStates) good = true ->
  resolvable machineStates bad = false ->
  fst (run h (GetStatus f name) w0) =
    (UnitStatus_zero, Some (maskAny (maskAny ipNotFoundError))) /\
  trace h (GetStatus f name) w0 =
    Units (fleet_Client f) :: UnitStates (fleet_Client f) ::
    repeat (Machines (fleet_Client f)) (List.length good + 1).
Proof.
  intros HU Hfu HUS Hst Hinv Hmatch Hgood Hbad.
  rewrite (run_GetStatus_found h f name w0 HU Hfu HUS).
  rewrite (trace_GetStatus_found h f name w0 HU Hfu HUS).
  rewrite Hmatch. split.
  - destruct (@run_aggregate_stable deps W h f Inv machineStates (good ++ bad :: rest)
                {| Current := Unit_CurrentState fu;
                   Desired := Unit_DesiredState fu;
                   Machine := [] |} w2 Hst Hinv) as [Hrun _].
    rewrite Hrun. apply aggregate_once_unresolved.
    rewrite forallb_app, Hgood. simpl. rewrite Hbad. reflexivity.
  - rewrite (@trace_aggregate_stops W h f Inv machineStates good bad rest
               Hst Hgood Hbad _ w2 Hinv).
    reflexivity.
Qed.

End Resolving.

(** * More of the laboratory as an instance *)

Lemma NewFleet_network_witness :
  let client := {| Client_Transport := Some DefaultTransport |} in
  run (remote lab_sys) (NewFleet lab_https_config) lab_cluster =
    ((Some {| fleet_Config :=
                {| Client := client; Endpoint := Endpoint lab_https_config |};
              fleet_Client := 7 : @API lab |}, None), lab_cluster) /\
  trace (remote lab_sys) (NewFleet lab_https_config) lab_cluster =
    [NewHTTPClient client (Endpoint lab_https_config)].
Proof.
  apply (@NewFleet_network lab lab_https_config Remote (remote lab_sys)
           lab_cluster lab_cluster (7 : @API lab)).
  - right; reflexivity.
  - reflexivity.
Defined.

Lemma NewFleet_invalid_scheme_witness :
  let err := maskAny (Errorf "invalid scheme in fleet endpoint: %s" ["ftp"]) in
  @NewFleet lab lab_ftp_config = Ret (None, Some err) /\
  IsConfigurationError err = true /\
  (forall (W : Type) (h : @Handler lab W) (w : W),
     run h (NewFleet lab_ftp_config) w = ((None, Some err), w) /\
     trace h (NewFleet lab_ftp_config) w = []).
Proof.
  apply (@NewFleet_invalid_scheme lab lab_ftp_config); discriminate.
Defined.

Lemma NewFleet_again_witness :
  Endpoint (fleet_Config lab_socket_fleet) =
    {| Scheme := "http"; Host := "domain-sock"; Path := "" |} /\
  (forall (W2 : Type) (h2 : @Handler lab W2) (w2 : W2),
     trace h2 (NewFleet (fleet_Config lab_socket_fleet)) w2 =
       [NewHTTPClient {| Client_Transport := Some DefaultTransport |}
          {| Scheme := "http"; Host := "domain-sock"; Path := "" |}]).
Proof.
  apply (@NewFleet_again lab DefaultConfig Remote (remote lab_sys)
           lab_cluster lab_cluster lab_socket_fleet).
  - right; reflexivity.
  - reflexivity.
  - reflexivity.
Defined.

(** A unit file for a new unit, mail.service. *)
Lemma Submit_accepted_witness :
  let unit : @schema_Unit lab :=
    {| Unit_Name := "mail.service";
       Unit_Options := ["[Service]" : @UnitOption lab];
       Unit_DesiredState := "loaded";
       Unit_CurrentState := "" |} in
  trace (remote lab_sys) (Submit lab_fleet "mail.service" "[Service]") lab_cluster =
    [CreateUnit (fleet_Client lab_fleet) unit] /\
  run (remote lab_sys) (Submit lab_fleet "mail.service" "[Service]") lab_cluster =
    (option_map maskAny
       (fst (remote lab_sys (CreateUnit (fleet_Client lab_fleet) unit) lab_cluster)),
     snd (remote lab_sys (CreateUnit (fleet_Client lab_fleet) unit) lab_cluster)).
Proof.
  apply (@Submit_accepted lab Remote (remote lab_sys) lab_fleet "mail.service"
           "[Service]" ("[Service]" : @UnitFile lab) lab_cluster).
  reflexivity.
Defined.

(** mail.service is not there to be started. *)
Lemma verb_error_cause_witness :
  exists e0,
    remote lab_sys (SetUnitTargetState (fleet_Client lab_fleet) "mail.service" "launched")
      lab_cluster = (Some e0, lab_cluster) /\
    maskAny no_such_unit = maskAny e0 /\
    Cause (maskAny no_such_unit) = Cause e0 /\
    IsUnitNotFound (maskAny no_such_unit) = IsUnitNotFound e0.
Proof.
  apply (proj1 (@verb_error_cause lab Remote (remote lab_sys) lab_fleet "mail.service"
                  lab_cluster lab_cluster (maskAny no_such_unit))).
  reflexivity.
Defined.

(** db.service is destroyed and asked for. *)
Lemma Destroy_then_GetStatus_witness :
  let w1 := snd (run (remote lab_sys) (Destroy lab_fleet "db.service") lab_cluster) in
  run (remote lab_sys) (GetStatus lab_fleet "db.service") w1 =
    ((UnitStatus_zero, Some (maskAny unitNotFoundError)), w1) /\
  IsUnitNotFound (maskAny unitNotFoundError) = true.
Proof.
  intros w1.
  apply (@Destroy_then_GetStatus lab Remote (remote lab_sys) lab_fleet "db.service"
           lab_cluster w1 w1 [lab_web; lab_cron]).
  - apply remote_forgets_destroyed.
  - reflexivity.
  - reflexivity.
Defined.

Lemma GetStatus_error_zero_status_witness :
  fst (fst (run (remote lab_sys) (GetStatus lab_fleet "web.service")
              lab_cluster_without_m1)) = UnitStatus_zero /\
  Machine (fst (fst (run (remote lab_sys) (GetStatus lab_fleet "web.service")
                       lab_cluster_without_m1))) = [].
Proof.
  apply (@GetStatus_error_zero_status lab Remote (remote lab_sys) lab_fleet
           "web.service" lab_cluster_without_m1 (maskAny (maskAny ipNotFoundError))).
  reflexivity.
Defined.

Lemma GetStatus_success_shape_witness :
  let st := fst (fst (run (remote lab_sys) (GetStatus lab_fleet "web.service")
                        lab_cluster)) in
  (Current st = "launched" /\ Desired st = "launched" /\
   map ID (Machine st) = ["m2"; "m1"] /\
   map SystemdActive (Machine st) = ["active"; "failed"]) /\
  exists pre fu post fleetUnitStates records w1 w2,
    remote lab_sys (Units (fleet_Client lab_fleet)) lab_cluster =
      ((pre ++ fu :: post, None), w1) /\
    (forall u, In u pre -> Unit_Name u <> "web.service") /\
    Unit_Name fu = "web.service" /\
    remote lab_sys (UnitStates (fleet_Client lab_fleet)) w1 =
      ((fleetUnitStates, None), w2) /\
    records_of "web.service" fleetUnitStates records /\
    Current st = Unit_CurrentState fu /\
    Desired st = Unit_DesiredState fu /\
    map ID (Machine st) = map UnitState_MachineID records /\
    map SystemdActive (Machine st) = map UnitState_SystemdActiveState records /\
    List.length (Machine st) = List.length records.
Proof.
  intros st. split; [repeat split; reflexivity |].
  apply (@GetStatus_success_shape lab Remote (remote lab_sys) lab_fleet "web.service"
           lab_cluster lab_cluster st).
  reflexivity.
Defined.

Lemma GetStatus_fetch_count_witness :
  trace (remote lab_sys) (GetStatus lab_fleet "web.service") lab_cluster =
    [Units (fleet_Client lab_fleet); UnitStates (fleet_Client lab_fleet);
     Machines (fleet_Client lab_fleet); Machines (fleet_Client lab_fleet)].
Proof.
  apply (@GetStatus_fetch_count lab Remote (remote lab_sys) lab_fleet "web.service"
           lab_cluster lab_cluster
           (fst (fst (run (remote lab_sys) (GetStatus lab_fleet "web.service")
                        lab_cluster)))).
  reflexivity.
Defined.

Lemma GetStatus_Units_fetch_fails_witness :
  let err := Foreign "connection refused" in
  run (remote lab_sys) (GetStatus lab_fleet "web.service")
      (lab_cluster_behind units_down) =
    ((UnitStatus_zero, Some (maskAny err)), lab_cluster_behind units_down) /\
  Cause (maskAny err) = Cause err /\
  trace (remote lab_sys) (GetStatus lab_fleet "web.service")
        (lab_cluster_behind units_down) =
    [Units (fleet_Client lab_fleet)].
Proof.
  apply (@GetStatus_Units_fetch_fails lab Remote (remote lab_sys) lab_fleet
           "web.service" (lab_cluster_behind units_down)
           (lab_cluster_behind units_down) []).
  reflexivity.
Defined.

Lemma GetStatus_UnitStates_fetch_fails_witness :
  let err := Foreign "connection reset" in
  run (remote lab_sys) (GetStatus lab_fleet "web.service")
      (lab_cluster_behind unit_states_down) =
    ((UnitStatus_zero, Some (maskAny err)), lab_cluster_behind unit_states_down) /\
  Cause (maskAny err) = Cause err /\
  trace (remote lab_sys) (GetStatus lab_fleet "web.service")
        (lab_cluster_behind unit_states_down) =
    [Units (fleet_Client lab_fleet); UnitStates (fleet_Client lab_fleet)].
Proof.
  apply (@GetStatus_UnitStates_fetch_fails lab Remote (remote lab_sys) lab_fleet
           "web.service" (lab_cluster_behind unit_states_down)
           (lab_cluster_behind unit_states_down)
           (lab_cluster_behind unit_states_down) lab_units lab_web []);
    reflexivity.
Defined.

Lemma GetStatus_Machines_fetch_fails_witness :
  let err := Foreign "timeout" in
  run (remote lab_sys) (GetStatus lab_fleet "web.service") lab_cluster_machines_down =
    ((UnitStatus_zero, Some (maskAny (maskAny err))), lab_cluster_machines_down) /\
  Cause (maskAny (maskAny err)) = Cause err /\
  trace (remote lab_sys) (GetStatus lab_fleet "web.service")
        lab_cluster_machines_down =
    [Units (fleet_Client lab_fleet); UnitStates (fleet_Client lab_fleet);
     Machines (fleet_Client lab_fleet)].
Proof.
  apply (@GetStatus_Machines_fetch_fails lab Remote (remote lab_sys) lab_fleet
           "web.service" lab_cluster_machines_down lab_cluster_machines_down
           lab_cluster_machines_down lab_cluster_machines_down
           lab_units lab_web lab_unit_states lab_web_on_m2 [lab_web_on_m1] []);
    reflexivity.
Defined.

(** Of the two machines with the ID m1, the first gives the IP. *)
Lemma ipFromUnitState_first_match_witness :
  run (remote lab_sys) (ipFromUnitState lab_fleet lab_web_on_m1) lab_cluster_two_m1 =
    ((lab_ParseIP "10.0.0.1", None), lab_cluster_two_m1) /\
  trace (remote lab_sys) (ipFromUnitState lab_fleet lab_web_on_m1) lab_cluster_two_m1 =
    [Machines (fleet_Client lab_fleet)].
Proof.
  apply (@ipFromUnitState_first_match lab Remote (remote lab_sys) lab_fleet
           lab_web_on_m1 lab_cluster_two_m1 lab_cluster_two_m1
           [lab_m2] lab_m1 [lab_m1_again; lab_m3]).
  - reflexivity.
  - intros m [<- | []]. discriminate.
  - reflexivity.
Defined.

(** Before m1 has joined: the record on m2 resolves, the record on m1 stops
    the run. *)
Lemma GetStatus_stops_at_unresolved_witness :
  fst (run (remote lab_sys) (GetStatus lab_fleet "web.service")
         lab_cluster_without_m1) =
    (UnitStatus_zero, Some (maskAny (maskAny ipNotFoundError))) /\
  trace (remote lab_sys) (GetStatus lab_fleet "web.service") lab_cluster_without_m1 =
    [Units (fleet_Client lab_fleet); UnitStates (fleet_Client lab_fleet);
     Machines (fleet_Client lab_fleet); Machines (fleet_Client lab_fleet)].
Proof.
  apply (@GetStatus_stops_at_unresolved lab Remote (remote lab_sys) lab_fleet
           "web.service" (eq lab_cluster_without_m1)
           lab_cluster_without_m1 lab_cluster_without_m1 lab_cluster_without_m1
           lab_units lab_web lab_unit_states [lab_m2; lab_m3]
           [lab_web_on_m2] lab_web_on_m1 []);
    try reflexivity.
  intros w <-; split; reflexivity.
Defined.
